(** * Wallet tracker: the transaction-windowed aggregation pipeline

    A shallow embedding of [src/walletTracker.ts] and the properties of
    its retry wrapper, signature pagination, trade classifier, ledger
    aggregation and top-trader report.

    Modelling conventions.
    - A JavaScript [number] that holds a count or a raw on-chain amount
      is a [Z]; one that holds a converted amount (SOL, USD, a ratio) is
      an exact rational [Q], and equalities between amounts are stated
      with [==].  Counts, signs, order and monotonicity are read off this
      model; what depends on the rounding of IEEE doubles is stated on
      the module [Double], which repeats the aggregator's arithmetic in
      binary64 floats.
    - [null]/[undefined] are [None]; truthiness tests are written out.
    - Network calls and [sleep] act on an abstract [World]; a call
      either returns or throws, and [try]/[catch] is explicit.
    - The ledger object [profitTraders] is an association list in
      insertion order (the order of [Object.entries] for non-index
      string keys).  The position of an entry is the identity of its
      record object: an in-place mutation through an alias is an update
      at that position.  Owners are wallet addresses, never names of
      [Object.prototype] members.
    - [uiTokenAmount.amount] is the decimal string of an integer;
      [Number(amount)] is that integer. *)

From Equations Require Import Equations.
From Stdlib Require Import ZArith QArith List String Bool Lia Arith.
From Stdlib Require Import DecimalString Sorted PrimFloat.
Import ListNotations.

Local Open Scope string_scope.
Local Open Scope list_scope.
Local Open Scope Z_scope.

(** ** Constants (walletTracker.ts, lines 22-31) *)

Definition BASE_DELAY : Z := 100.
Definition MAX_RETRIES : nat := 5.
Definition INITIAL_BACKOFF : Z := 1000.
Definition BATCH_SIZE : Z := 50.
Definition MAX_TRANSACTIONS_PER_INTERVAL : Z := 800.
Definition MAX_TRANSACTIONS : Z := 1000.
Definition MIN_TRADES : Z := 3.
Definition LAMPORTS_PER_SOL : Z := 1000000000.

(** ** Data model *)

(** A thrown value; [message] is what [error?.message] reads. *)
Record Error := { message : option string }.

Record SigInfo := { signature : string; blockTime : option Z }.

Record UiTokenAmount := { amount : Z }.

Record TokenBalance := {
  owner : option string;
  uiTokenAmount : option UiTokenAmount
}.

Record Meta := {
  preBalances : option (list Z);
  postBalances : option (list Z);
  preTokenBalances : option (list (option TokenBalance));
  postTokenBalances : option (list (option TokenBalance))
}.

Record Transaction := { meta : option Meta }.

(** [interface TraderData] (lines 146-154). *)
Record TraderData := {
  profit : Q;
  trades : Z;
  totalVolume : Q;
  successfulTrades : Z;
  averageTradeSize : Q;
  solBalance : Q;
  usdProfit : Q
}.

Definition Ledger := list (string * TraderData).

(** Request options of [getSignaturesForAddress]. *)
Record SigOptions := { limit : Z; before : option string }.

(** ** Strings *)

(** [s.includes(sub)] *)
Fixpoint includes (s sub : string) : bool :=
  String.prefix sub s ||
  match s with
  | EmptyString => false
  | String _ s' => includes s' sub
  end.

(** Truthiness of an optional string: present and not empty. *)
Definition truthyString (o : option string) : option string :=
  match o with
  | Some s => if String.eqb s "" then None else Some s
  | None => None
  end.

(** ** Effects: calls that act on the world and may throw *)

Inductive Outcome (A : Type) : Type :=
| Ok (a : A)
| Throw (e : Error).
Arguments Ok {A} a.
Arguments Throw {A} e.

Definition M (World A : Type) : Type := World -> World * Outcome A.

Definition ret {World A} (a : A) : M World A := fun w => (w, Ok a).

Definition bind {World A B} (m : M World A) (k : A -> M World B) : M World B :=
  fun w =>
    match m w with
    | (w1, Ok a) => k a w1
    | (w1, Throw e) => (w1, Throw e)
    end.

(** [try { m } catch (_) { h }] *)
Definition tryCatch {World A} (m : M World A) (h : Error -> M World A) : M World A :=
  fun w =>
    match m w with
    | (w1, Ok a) => (w1, Ok a)
    | (w1, Throw e) => h e w1
    end.

Declare Scope js_scope.
Delimit Scope js_scope with js.
Notation "x <- m ;; k" := (bind m (fun x => k))
  (at level 100, m at next level, right associativity) : js_scope.
Notation "m ;;; k" := (bind m (fun _ => k))
  (at level 100, right associativity) : js_scope.

(** [error?.message?.includes('429')] *)
Definition isRateLimited (e : Error) : bool :=
  match message e with
  | Some m => includes m "429"
  | None => false
  end.

(** ** withRetry (lines 48-63) *)

Section Retry.
Context {World : Type}.
Variable sleep : Z -> World -> World.

Equations? withRetry {T : Type} (operation : M World T) (retryCount : nat)
  (w : World) : World * Outcome T by wf (MAX_RETRIES - retryCount)%nat lt :=
  withRetry operation retryCount w with operation w := {
    | (w1, Ok v) => (w1, Ok v)
    | (w1, Throw error) with
        Sumbool.sumbool_of_bool
          (isRateLimited error && (retryCount <? MAX_RETRIES)%nat) := {
        | left _ =>
            let delay := INITIAL_BACKOFF * 2 ^ Z.of_nat retryCount in
            withRetry operation (S retryCount) (sleep delay w1)
        | right _ => (w1, Throw error) } }.
Proof.
  apply andb_prop in e as [_ Hlt].
  apply Nat.ltb_lt in Hlt. unfold MAX_RETRIES in Hlt.
  do 5 (destruct retryCount as [|retryCount]; [lia|]). lia.
Qed.
End Retry.

(** ** Numbers *)

(** [x < y] on converted amounts. *)
Definition Qltb (x y : Q) : bool := negb (Qle_bool y x).

(** [arr[i]] on an array whose elements may be [null]. *)
Definition at_index {A} (arr : list (option A)) (i : nat) : option A :=
  match nth_error arr i with
  | Some x => x
  | None => None
  end.

(** ** TransactionClassifier *)

(** The condition of lines 94-99 on one index-aligned pair. *)
Definition pairChanged (pre post : option TokenBalance) : bool :=
  match pre, post with
  | Some pre, Some post =>
      match truthyString (owner pre), uiTokenAmount pre, uiTokenAmount post with
      | Some _, Some preUi, Some postUi =>
          let preAmount := amount preUi in
          let postAmount := amount postUi in
          0 <? Z.abs (postAmount - preAmount)
      | _, _, _ => false
      end
  | _, _ => false
  end.

(** [isTradeTransaction] (lines 81-106). *)
Definition isTradeTransaction (transaction : option Transaction) : bool :=
  match transaction with
  | Some tx =>
      match meta tx with
      | Some m =>
          match preTokenBalances m, postTokenBalances m with
          | Some preBalances, Some postBalances =>
              existsb
                (fun i => pairChanged (at_index preBalances i) (at_index postBalances i))
                (seq 0 (List.length preBalances))
          | _, _ => false
          end
      | None => false
      end
  | None => false
  end.

(** [calculateTradeValue] (lines 109-131). *)
Definition calculateTradeValue (transaction : option Transaction) : Q :=
  match transaction with
  | Some tx =>
      match meta tx with
      | Some m =>
          match preBalances m, postBalances m with
          | Some preBalances, Some postBalances =>
              fold_left
                (fun totalChange i =>
                   match nth_error preBalances i, nth_error postBalances i with
                   | Some preBalance, Some postBalance =>
                       let change :=
                         (inject_Z (Z.abs (postBalance - preBalance))
                          / inject_Z LAMPORTS_PER_SOL)%Q in
                       if Qltb (1 # 1000) change
                       then (totalChange + change)%Q
                       else totalChange
                   | _, _ => totalChange
                   end)
                (seq 0 (List.length preBalances)) 0%Q
          | _, _ => 0%Q
          end
      | None => 0%Q
      end
  | None => 0%Q
  end.

(** ** LedgerAggregator *)

(** [profitTraders[key]] *)
Fixpoint lookup (profitTraders : Ledger) (key : string) : option TraderData :=
  match profitTraders with
  | [] => None
  | (k, data) :: rest => if String.eqb k key then Some data else lookup rest key
  end.

(** In-place mutation of the record stored under [key]. *)
Fixpoint update (profitTraders : Ledger) (key : string)
  (f : TraderData -> TraderData) : Ledger :=
  match profitTraders with
  | [] => []
  | (k, data) :: rest =>
      if String.eqb k key then (k, f data) :: rest
      else (k, data) :: update rest key f
  end.

(** The fresh record of lines 261-269. *)
Definition newTrader : TraderData :=
  {| profit := 0; trades := 0; totalVolume := 0; successfulTrades := 0;
     averageTradeSize := 0; solBalance := 0; usdProfit := 0 |}.

(** Lines 273-281 on the record [trader]. *)
Definition applyChange (tradeValue : Q) (change : Z) (trader : TraderData)
  : TraderData :=
  let profit' := (profit trader + inject_Z change / inject_Z 1000000000)%Q in
  let trades' := trades trader + 1 in
  let totalVolume' := (totalVolume trader + tradeValue)%Q in
  let successfulTrades' :=
    if 0 <? change then successfulTrades trader + 1 else successfulTrades trader in
  {| profit := profit';
     trades := trades';
     totalVolume := totalVolume';
     successfulTrades := successfulTrades';
     averageTradeSize := (totalVolume' / inject_Z trades')%Q;
     solBalance := solBalance trader;
     usdProfit := usdProfit trader |}.

(** The body of the loop of lines 253-284 for one index. *)
Definition applyPair (tradeValue : Q) (pre post : option TokenBalance)
  (profitTraders : Ledger) : Ledger :=
  match pre, post with
  | Some pre, Some post =>
      match truthyString (owner pre), uiTokenAmount pre, uiTokenAmount post with
      | Some preOwner, Some preUi, Some postUi =>
          let change := amount postUi - amount preUi in
          if change =? 0 then profitTraders
          else
            let created :=
              match lookup profitTraders preOwner with
              | Some _ => profitTraders
              | None => profitTraders ++ [(preOwner, newTrader)]
              end in
            update created preOwner (applyChange tradeValue change)
      | _, _, _ => profitTraders
      end
  | _, _ => profitTraders
  end.

(** The loop of lines 253-284. *)
Definition applyTokenBalances (tradeValue : Q)
  (preBalances postBalances : list (option TokenBalance))
  (profitTraders : Ledger) : Ledger :=
  fold_left
    (fun ledger i =>
       applyPair tradeValue (at_index preBalances i) (at_index postBalances i) ledger)
    (seq 0 (List.length preBalances)) profitTraders.

Definition orEmpty {A} (o : option (list A)) : list A :=
  match o with
  | Some l => l
  | None => []
  end.

(** Lines 244-284: what one fetched transaction does to the ledger. *)
Definition processTransaction (transaction : option Transaction)
  (profitTraders : Ledger) : Ledger :=
  match transaction with
  | None => profitTraders
  | Some tx =>
      match meta tx with
      | None => profitTraders
      | Some m =>
          if negb (isTradeTransaction transaction) then profitTraders
          else
            let tradeValue := calculateTradeValue transaction in
            if Qeq_bool tradeValue 0 then profitTraders
            else
              applyTokenBalances tradeValue
                (orEmpty (preTokenBalances m)) (orEmpty (postTokenBalances m))
                profitTraders
      end
  end.

(** ** Ranker / Reporter *)

(** The filter of lines 321-325. *)
Definition isEligible (data : TraderData) : bool :=
  (MIN_TRADES <=? trades data)
  && Qltb 0 (profit data)
  && Qltb (1 # 2) (inject_Z (successfulTrades data) / inject_Z (trades data)).

(** An entry of [Object.entries(profitTraders)] together with the position of
    its record in the ledger. *)
Definition Entry : Type := nat * (string * TraderData).

Definition entryData (e : Entry) : TraderData := snd (snd e).

Definition entries (profitTraders : Ledger) : list Entry :=
  combine (seq 0 (List.length profitTraders)) profitTraders.

(** [.sort((a, b) => b[1].profit - a[1].profit)]: a stable sort; [a] stays
    before [b] when the comparator is not positive. *)
Fixpoint insertByProfit (a : Entry) (sorted : list Entry) : list Entry :=
  match sorted with
  | [] => [a]
  | b :: rest =>
      if Qle_bool (profit (entryData b) - profit (entryData a)) 0
      then a :: b :: rest
      else b :: insertByProfit a rest
  end.

Definition sortByProfit (l : list Entry) : list Entry :=
  fold_right insertByProfit [] l.

(** Lines 320-327. *)
Definition eligibleTraders (profitTraders : Ledger) : list Entry :=
  firstn 10
    (sortByProfit (filter (fun e => isEligible (entryData e)) (entries profitTraders))).

(** Mutation of the record at position [i]. *)
Fixpoint updateAt (i : nat) (f : TraderData -> TraderData) (l : Ledger)
  {struct l} : Ledger :=
  match l, i with
  | [], _ => []
  | (k, data) :: rest, O => (k, f data) :: rest
  | e :: rest, S i' => e :: updateAt i' f rest
  end.

(** Lines 332-333 on the record [data]. *)
Definition setBalances (balance solPrice : Q) (data : TraderData) : TraderData :=
  {| profit := profit data;
     trades := trades data;
     totalVolume := totalVolume data;
     successfulTrades := successfulTrades data;
     averageTradeSize := averageTradeSize data;
     solBalance := balance;
     usdProfit := (profit data * solPrice)%Q |}.

(** The record behind an entry, read after the mutations. *)
Definition readEntry (profitTraders : Ledger) (e : Entry) : string * TraderData :=
  (fst (snd e), nth (fst e) (map snd profitTraders) (entryData e)).

(** ** The tracker over an abstract chain-data provider *)

(** [sig?.blockTime ? sig.blockTime * 1000 : 0] *)
Definition timeOf (sig : option SigInfo) : Z :=
  match sig with
  | Some s =>
      match blockTime s with
      | Some t => if t =? 0 then 0 else t * 1000
      | None => 0
      end
  | None => 0
  end.

(** The variables of one pass of the [for] loop over [TIME_PERIODS]
    (lines 188-191 and 169). *)
Record LoopState := {
  allSignatures : list SigInfo;
  lastSignature : option string;
  keepFetching : bool;
  totalFetched : Z;
  profitTraders : Ledger
}.

Definition initialState : LoopState :=
  {| allSignatures := []; lastSignature := None; keepFetching := true;
     totalFetched := 0; profitTraders := [] |}.

Definition withLedger (st : LoopState) (l : Ledger) : LoopState :=
  {| allSignatures := allSignatures st; lastSignature := lastSignature st;
     keepFetching := keepFetching st; totalFetched := totalFetched st;
     profitTraders := l |}.

(** Lines 206-227: the effect of one non-empty page on the loop variables. *)
Definition accumulate (now ms : Z) (signatures : list SigInfo) (st : LoopState)
  : LoopState :=
  let oldestTx := nth_error signatures (List.length signatures - 1) in
  let oldestTxTime := timeOf oldestTx in
  let tooOld := oldestTxTime <? now - ms in
  let validSignatures :=
    filter (fun sig => now - ms <=? timeOf (Some sig)) signatures in
  let totalFetched' := totalFetched st + Z.of_nat (List.length signatures) in
  {| allSignatures :=
       if tooOld then allSignatures st ++ validSignatures
       else allSignatures st ++ signatures;
     lastSignature :=
       if tooOld then lastSignature st else option_map signature oldestTx;
     keepFetching :=
       if MAX_TRANSACTIONS_PER_INTERVAL <=? totalFetched' then false
       else if tooOld then false else keepFetching st;
     totalFetched := totalFetched';
     profitTraders := profitTraders st |}.

Section Tracker.
Context {World : Type}.
Variable sleep : Z -> World -> World.
Variable getSignaturesForAddress : SigOptions -> M World (list SigInfo).
Variable getTransaction : string -> M World (option Transaction).
Variable getBalance : string -> M World Z.

Local Open Scope js_scope.

Definition doSleep (ms : Z) : M World unit := fun w => (sleep ms w, Ok tt).

(** [getWalletSolBalance] (lines 134-143). *)
Definition getWalletSolBalance (walletAddress : string) : M World Q :=
  tryCatch
    (balance <- getBalance walletAddress ;;
     ret (inject_Z balance / inject_Z LAMPORTS_PER_SOL)%Q)
    (fun _ => ret 0%Q).

(** The loop of lines 330-334; [data] is an alias of the record at the
    entry's position. *)
Fixpoint updateBalances (solPrice : Q) (eligible : list Entry)
  (ledger : Ledger) : M World Ledger :=
  match eligible with
  | [] => ret ledger
  | (i, (address, _)) :: rest =>
      doSleep BASE_DELAY ;;;
      balance <- getWalletSolBalance address ;;
      updateBalances solPrice rest (updateAt i (setBalances balance solPrice) ledger)
  end.

(** [displayResults] (lines 318-370): the ledger after the mutations and
    the rows that are printed. *)
Definition displayResults (ledger : Ledger) (solPrice : Q)
  : M World (Ledger * list (string * TraderData)) :=
  let eligible := eligibleTraders ledger in
  ledger' <- updateBalances solPrice eligible ledger ;;
  ret (ledger', map (readEntry ledger') eligible).

(** The loop of lines 235-294. *)
Fixpoint processSignatures (sigs : list SigInfo) (ledger : Ledger)
  : M World Ledger :=
  match sigs with
  | [] => ret ledger
  | sig :: rest =>
      ledger' <-
        tryCatch
          (doSleep BASE_DELAY ;;;
           transaction <- withRetry sleep (getTransaction (signature sig)) 0 ;;
           ret (processTransaction transaction ledger))
          (fun _ => ret ledger) ;;
      processSignatures rest ledger'
  end.

(** Lines 230-299. *)
Definition processAndDisplay (solPrice : Q) (st : LoopState) : M World LoopState :=
  ledger <- processSignatures (allSignatures st) (profitTraders st) ;;
  shown <- displayResults ledger solPrice ;;
  ret (withLedger st (fst shown)).

(** The [while] loop of lines 193-303.  [None] is returned only when
    [fuel] runs out. *)
Fixpoint windowLoop (now ms : Z) (solPrice : Q) (fuel : nat) (st : LoopState)
  : M World (option LoopState) :=
  if keepFetching st && (totalFetched st <? MAX_TRANSACTIONS_PER_INTERVAL) then
    match fuel with
    | O => ret None
    | S fuel' =>
        let options :=
          {| limit := BATCH_SIZE; before := truthyString (lastSignature st) |} in
        signatures <- withRetry sleep (getSignaturesForAddress options) 0 ;;
        if (List.length signatures =? 0)%nat then ret (Some st)
        else
          let st1 := accumulate now ms signatures st in
          st2 <-
            (if (Z.rem (totalFetched st1) 200 =? 0) || negb (keepFetching st1)
             then processAndDisplay solPrice st1
             else ret st1) ;;
          doSleep BASE_DELAY ;;;
          windowLoop now ms solPrice fuel' st2
    end
  else ret (Some st).

(** One pass of the [for] loop over [TIME_PERIODS] (lines 182-307): the
    ledger and the rows of the final report. *)
Definition trackWindow (now ms : Z) (solPrice : Q) (fuel : nat)
  : M World (option (Ledger * list (string * TraderData))) :=
  doSleep BASE_DELAY ;;;
  r <- windowLoop now ms solPrice fuel initialState ;;
  match r with
  | None => ret None
  | Some st =>
      shown <- displayResults (profitTraders st) solPrice ;;
      ret (Some shown)
  end.
End Tracker.

(** ** The attempts of a retried operation *)

(** The world in which attempt [k] (counted from 0) of [operation] starts
    when the wrapper was entered in world [w] with retry counter
    [retryCount] and every earlier attempt was retried: after a failed
    attempt the wrapper sleeps [INITIAL_BACKOFF * 2 ^ retryCount]. *)
Fixpoint worldBefore {World T : Type} (sleep : Z -> World -> World)
  (operation : M World T) (retryCount : nat) (w : World) (k : nat) : World :=
  match k with
  | O => w
  | S k' =>
      worldBefore sleep operation (S retryCount)
        (sleep (INITIAL_BACKOFF * 2 ^ Z.of_nat retryCount) (fst (operation w))) k'
  end.

(** The attempt fails with a rate-limit error. *)
Definition rateLimitedAt {World T : Type} (operation : M World T) (w : World) : Prop :=
  exists e, snd (operation w) = Throw e /\ isRateLimited e = true.

(** A world that only counts the attempts and records the sleeps, and an
    operation whose [k]-th attempt has the outcome [script k]. *)
Module Script.
Record RetryWorld := { attemptsMade : nat; sleeps : list Z }.

Definition sleep (ms : Z) (w : RetryWorld) : RetryWorld :=
  {| attemptsMade := attemptsMade w; sleeps := sleeps w ++ [ms] |}.

Definition scripted {T : Type} (script : nat -> Outcome T) : M RetryWorld T :=
  fun w =>
    ({| attemptsMade := S (attemptsMade w); sleeps := sleeps w |},
     script (attemptsMade w)).

Definition start : RetryWorld := {| attemptsMade := 0; sleeps := [] |}.

Definition tooManyRequests : Error :=
  {| message := Some "429 Too Many Requests" |}.

(** Attempts 1 to 4 are rate limited, attempt 5 returns 42. *)
Definition fifthSucceeds (k : nat) : Outcome Z :=
  if (k <? 4)%nat then Throw tooManyRequests
  else if (k =? 4)%nat then Ok 42 else Ok 0.
End Script.

(** ** Pairs of token-balance entries *)

(** The pair at index [i] as the classifier and the aggregator test it
    (lines 94 and 257): both entries present, the pre-entry with a non-empty
    owner, both with a parsed amount. *)
Definition qualifyingPair (pres posts : list (option TokenBalance)) (i : nat)
  (preOwner : string) (preAmount postAmount : Z) : Prop :=
  exists pre post preUi postUi,
    at_index pres i = Some pre /\ at_index posts i = Some post
    /\ truthyString (owner pre) = Some preOwner
    /\ uiTokenAmount pre = Some preUi /\ uiTokenAmount post = Some postUi
    /\ amount preUi = preAmount /\ amount postUi = postAmount.

(** The pair at index [i] when the owner is required of both entries. *)
Definition bothOwnedPair (pres posts : list (option TokenBalance)) (i : nat)
  (preAmount postAmount : Z) : Prop :=
  exists pre post preOwner postOwner preUi postUi,
    at_index pres i = Some pre /\ at_index posts i = Some post
    /\ owner pre = Some preOwner /\ owner post = Some postOwner
    /\ uiTokenAmount pre = Some preUi /\ uiTokenAmount post = Some postUi
    /\ amount preUi = preAmount /\ amount postUi = postAmount.

Definition tokenBalance (o : option string) (a : Z) : option TokenBalance :=
  Some {| owner := o; uiTokenAmount := Some {| amount := a |} |}.

Definition tokenTransaction (pres posts : list (option TokenBalance))
  (solPre solPost : list Z) : Transaction :=
  {| meta := Some {| preBalances := Some solPre; postBalances := Some solPost;
                     preTokenBalances := Some pres;
                     postTokenBalances := Some posts |} |}.

(** A token account whose post-entry carries no owner. *)
Definition ownerDropped : Transaction :=
  tokenTransaction [tokenBalance (Some "A") 1] [tokenBalance None 2]
    [2000000000; 0] [1000000000; 1000000000].

(** ** Ledger states *)

(** Ledgers that a run can hold: the empty ledger, updated by fetched
    transactions (lines 244-284) and by the balance mutations of a report
    (lines 332-333). *)
Inductive Reachable : Ledger -> Prop :=
| reach_empty : Reachable []
| reach_transaction (transaction : option Transaction) (l : Ledger) :
    Reachable l -> Reachable (processTransaction transaction l)
| reach_report (i : nat) (balance solPrice : Q) (l : Ledger) :
    Reachable l -> Reachable (updateAt i (setBalances balance solPrice) l).

(** The invariant of a record of the ledger. *)
Definition recordInvariant (d : TraderData) : Prop :=
  1 <= trades d
  /\ 0 <= successfulTrades d <= trades d
  /\ (0 <= totalVolume d)%Q
  /\ (averageTradeSize d * inject_Z (trades d) == totalVolume d)%Q.

(** What a report leaves alone in a record. *)
Definition sameTrading (d d' : TraderData) : Prop :=
  profit d' = profit d /\ trades d' = trades d
  /\ totalVolume d' = totalVolume d
  /\ successfulTrades d' = successfulTrades d
  /\ averageTradeSize d' = averageTradeSize d.

(** Wallet A gains 5 tokens (in display units) and wallet B loses 5; the
    native balances move by 1.15 SOL twice, a trade value of 2.3. *)
Definition twoParticipants : Transaction :=
  tokenTransaction
    [tokenBalance (Some "A") 0; tokenBalance (Some "B") 5000000000]
    [tokenBalance (Some "A") 5000000000; tokenBalance (Some "B") 0]
    [3000000000; 0] [1850000000; 1150000000].

(** The ledger a changed pair is applied to, with the record of the
    pre-owner created when it was missing. *)
Definition withTrader (l : Ledger) (preOwner : string) : Ledger :=
  match lookup l preOwner with
  | Some _ => l
  | None => l ++ [(preOwner, newTrader)]
  end.

Definition ledgerInvariant (l : Ledger) : Prop :=
  Forall (fun e => recordInvariant (snd e)) l.

(** [l'] is [l] after mutations that wrote only [solBalance] and [usdProfit],
    and only in the records at the positions [touched]. *)
Definition frameAt (l l' : Ledger) (touched : list nat) : Prop :=
  forall j,
    match nth_error l j, nth_error l' j with
    | Some (k, d), Some (k', d') =>
        k' = k /\ sameTrading d d' /\ (~ In j touched -> d' = d)
    | None, None => True
    | _, _ => False
    end.

(** Descending order of profit on the entries. *)
Definition profitOrder (a b : Entry) : Prop :=
  (profit (entryData b) <= profit (entryData a))%Q.

(** ** A scripted chain-data provider *)

(** A world that counts the calls; the [k]-th request for a page of
    signatures is answered with [pages k], a transaction is looked up in
    [transactions], every wallet holds 2.5 SOL. *)
Module Chain.
Record World := {
  pageRequests : nat;
  transactionFetches : nat;
  balanceLookups : nat
}.

Definition start : World :=
  {| pageRequests := 0; transactionFetches := 0; balanceLookups := 0 |}.

Definition sleep (ms : Z) (w : World) : World := w.

Definition getSignaturesForAddress (pages : nat -> list SigInfo)
  (options : SigOptions) : M World (list SigInfo) :=
  fun w =>
    ({| pageRequests := S (pageRequests w);
        transactionFetches := transactionFetches w;
        balanceLookups := balanceLookups w |},
     Ok (pages (pageRequests w))).

Definition getTransaction (transactions : string -> option Transaction)
  (sig : string) : M World (option Transaction) :=
  fun w =>
    ({| pageRequests := pageRequests w;
        transactionFetches := S (transactionFetches w);
        balanceLookups := balanceLookups w |},
     Ok (transactions sig)).

Definition getBalance (address : string) : M World Z :=
  fun w =>
    ({| pageRequests := pageRequests w;
        transactionFetches := transactionFetches w;
        balanceLookups := S (balanceLookups w) |},
     Ok 2500000000).

(** The signature number [n]. *)
Definition sigName (n : nat) : string :=
  String.append "s" (NilEmpty.string_of_uint (Nat.to_uint n)).

(** [count] signatures numbered from [first], all with the block time [t]. *)
Definition page (first count : nat) (t : option Z) : list SigInfo :=
  map (fun i => {| signature := sigName i; blockTime := t |}) (seq first count).

(** The clock and the window of the examples: the window starts at 50000 ms. *)
Definition now : Z := 150000.
Definition ms : Z := 100000.

(** One page whose middle signature has no block time, then the end of the
    history. *)
Definition nullInside (k : nat) : list SigInfo :=
  match k with
  | O => [ {| signature := "s1"; blockTime := Some 100 |};
           {| signature := "s2"; blockTime := None |};
           {| signature := "s3"; blockTime := Some 100 |} ]
  | S _ => []
  end.

(** One signature per page, each 30 s older than the one before. *)
Definition onePerPage (k : nat) : list SigInfo :=
  page k 1 (Some (120 - 30 * Z.of_nat k)).

(** Pages of 49 signatures inside the window, without end. *)
Definition shortPages (k : nat) : list SigInfo := page (49 * k) 49 (Some 100).

(** Full pages inside the window, without end. *)
Definition fullPages (k : nat) : list SigInfo := page (50 * k) 50 (Some 100).

(** A page whose last signature has no block time. *)
Definition nullLast : list SigInfo :=
  [ {| signature := "s1"; blockTime := Some 100 |};
    {| signature := "s2"; blockTime := None |} ].

(** Four full pages inside the window, then a page that lies before it. *)
Definition fourPagesThenOld (k : nat) : list SigInfo :=
  if (k <? 4)%nat then page (50 * k) 50 (Some 100)
  else [ {| signature := "old"; blockTime := Some 1 |} ].

(** Wallet A receives one token unit in a transaction worth 2.3 SOL. *)
Definition aliceBuys : Transaction :=
  tokenTransaction [tokenBalance (Some "A") 0] [tokenBalance (Some "A") 1000000000]
    [3000000000; 0] [1850000000; 1150000000].

(** Only the first signature is a trade; the other transactions are gone. *)
Definition onlyFirstTrades (sig : string) : option Transaction :=
  if String.eqb sig (sigName 0) then Some aliceBuys else None.

Definition noTransactions (sig : string) : option Transaction := None.

(** A ledger with a wallet at a win rate of 3/4 and one at exactly 1/2. *)
Definition sampleLedger : Ledger :=
  [ ("A", {| profit := 10; trades := 4; totalVolume := 8; successfulTrades := 3;
             averageTradeSize := 2; solBalance := 0; usdProfit := 0 |});
    ("B", {| profit := 10; trades := 4; totalVolume := 8; successfulTrades := 2;
             averageTradeSize := 2; solBalance := 0; usdProfit := 0 |}) ].
End Chain.

(** ** Pages and windows *)

(** Rounds that the [while] loop of a window is given. *)
Definition windowFuel : nat := Z.to_nat MAX_TRANSACTIONS_PER_INTERVAL.

(** The signature is not older than the start of the window. *)
Definition inWindow (now ms : Z) (sig : SigInfo) : Prop :=
  now - ms <= timeOf (Some sig).

(** No signature of the page is older than its last one. *)
Definition oldestLast (signatures : list SigInfo) : Prop :=
  forall sig, In sig signatures ->
    timeOf (nth_error signatures (List.length signatures - 1)) <= timeOf (Some sig).

(** The page holds at most [BATCH_SIZE] signatures. *)
Definition withinLimit (signatures : list SigInfo) : Prop :=
  Z.of_nat (List.length signatures) <= BATCH_SIZE.

(** The page is empty or holds exactly [BATCH_SIZE] signatures. *)
Definition fullOrEmpty (signatures : list SigInfo) : Prop :=
  signatures = [] \/ Z.of_nat (List.length signatures) = BATCH_SIZE.

(** Every page that [provider] returns for a request of [BATCH_SIZE]
    signatures satisfies [pageOk]. *)
Definition everyPage {World : Type}
  (provider : SigOptions -> M World (list SigInfo))
  (pageOk : list SigInfo -> Prop) : Prop :=
  forall options w w' signatures,
    limit options = BATCH_SIZE ->
    provider options w = (w', Ok signatures) -> pageOk signatures.

(** ** formatTime (lines 66-78) *)

(** [`${n}`] for an integer [n]. *)
Definition numberToString (n : Z) : string :=
  NilZero.string_of_int (Z.to_int n).

(** [formatTime] on a whole number of milliseconds. *)
Definition formatTime (ms : Z) : string :=
  let seconds := ms / 1000 in
  let minutes := seconds / 60 in
  let hours := minutes / 60 in
  if 0 <? hours then
    String.append (numberToString hours)
      (String.append "h " (String.append (numberToString (Z.rem minutes 60)) "m"))
  else if 0 <? minutes then
    String.append (numberToString minutes)
      (String.append "m " (String.append (numberToString (Z.rem seconds 60)) "s"))
  else String.append (numberToString seconds) "s".

(** ** The whole run (lines 157-315) and its caller (index.ts) *)

(** [TIME_PERIODS] (lines 15-20), in the order of [Object.entries]. *)
Definition TIME_PERIODS : list (string * Z) :=
  [ ("24h", 24 * 60 * 60 * 1000);
    ("7d", 7 * 24 * 60 * 60 * 1000);
    ("30d", 30 * 24 * 60 * 60 * 1000);
    ("1y", 365 * 24 * 60 * 60 * 1000) ].

(** How [trackProfitablePumpFunTraders] returns: after the last period,
    after the message that the price is missing, or after the message of
    the outer [catch]; [OutOfFuel] has no counterpart in the source. *)
Inductive RunEnd : Type :=
| Completed
| PriceUnavailable
| Failed (e : Error)
| OutOfFuel.

Section Run.
Context {World : Type}.
Variable sleep : Z -> World -> World.
Variable getSignaturesForAddress : SigOptions -> M World (list SigInfo).
Variable getTransaction : string -> M World (option Transaction).
Variable getBalance : string -> M World Z.
(** [axios.get(...)] followed by [response.data.solana.usd]. *)
Variable fetchSolPrice : M World Q.
(** [Date.now()] *)
Variable dateNow : World -> Z.
(** [process.exit(code)] *)
Variable exit : Z -> World -> World.

Local Open Scope js_scope.

(** [getSolPrice] (lines 37-45). *)
Definition getSolPrice : M World Q :=
  tryCatch fetchSolPrice (fun _ => ret 0%Q).

(** The body of the [for] loop (lines 182-310) entered with the ledger
    [ledger]; the ledger it leaves is the [{}] of line 310. *)
Definition trackPeriod (now : Z) (solPrice : Q) (fuel : nat) (ledger : Ledger)
  (ms : Z) : M World (option Ledger) :=
  doSleep sleep BASE_DELAY ;;;
  r <- windowLoop sleep getSignaturesForAddress getTransaction getBalance
         now ms solPrice fuel (withLedger initialState ledger) ;;
  match r with
  | None => ret None
  | Some st =>
      displayResults sleep getBalance (profitTraders st) solPrice ;;;
      ret (Some [])
  end.

(** The [for] loop of line 181. *)
Fixpoint trackPeriods (now : Z) (solPrice : Q) (fuel : nat)
  (periods : list (string * Z)) (ledger : Ledger) : M World RunEnd :=
  match periods with
  | [] => ret Completed
  | (_, ms) :: rest =>
      r <- trackPeriod now solPrice fuel ledger ms ;;
      match r with
      | None => ret OutOfFuel
      | Some ledger' => trackPeriods now solPrice fuel rest ledger'
      end
  end.

(** [trackProfitablePumpFunTraders] (lines 157-315). *)
Definition trackProfitablePumpFunTraders (fuel : nat) : M World RunEnd :=
  tryCatch
    (fun w =>
       let now := dateNow w in
       (solPrice <- getSolPrice ;;
        if Qeq_bool solPrice 0 then ret PriceUnavailable
        else trackPeriods now solPrice fuel TIME_PERIODS []) w)
    (fun error => ret (Failed error)).

(** index.ts: the run, and [process.exit(1)] when its promise rejects. *)
Definition main (fuel : nat) : M World RunEnd :=
  tryCatch (trackProfitablePumpFunTraders fuel)
    (fun error w => (exit 1 w, Ok (Failed error))).
End Run.

(** ** Totals of a ledger *)

Definition totalTrades (l : Ledger) : Z :=
  fold_right (fun e acc => trades (snd e) + acc) 0 l.

Definition totalVolumeOf (l : Ledger) : Q :=
  fold_right (fun e acc => (totalVolume (snd e) + acc)%Q) 0%Q l.

(** The indices at which the loops of lines 90 and 253 find a changed pair. *)
Definition changedPairs (pres posts : list (option TokenBalance)) : list nat :=
  filter (fun i => pairChanged (at_index pres i) (at_index posts i))
    (seq 0 (List.length pres)).

(** A record after further updates of the aggregator: the counters did not
    decrease and the report fields are as they were. *)
Definition recordGrows (d d' : TraderData) : Prop :=
  trades d <= trades d'
  /\ successfulTrades d <= successfulTrades d'
  /\ (totalVolume d <= totalVolume d')%Q
  /\ solBalance d' = solBalance d /\ usdProfit d' = usdProfit d.

(** [l'] has the records of [l] at the same positions and under the same
    addresses, each grown, followed by new records. *)
Definition ledgerGrows (l l' : Ledger) : Prop :=
  exists kept added,
    l' = kept ++ added
    /\ Forall2 (fun e e' => fst e' = fst e /\ recordGrows (snd e) (snd e')) l kept.

(** Balances that move by at most the dust threshold of 0.001 SOL. *)
Definition onlyDust (pre post : list Z) : Prop :=
  forall i a b, nth_error pre i = Some a -> nth_error post i = Some b ->
    Z.abs (b - a) <= 1000000.

(** A token purchase whose native balances show only a fee of 5000
    lamports. *)
Definition feeOnly : Transaction :=
  tokenTransaction [tokenBalance (Some "A") 0] [tokenBalance (Some "A") 1000000000]
    [3000000000; 7] [2999995000; 7].

(** Every address of the ledger has one record and is not the empty
    string. *)
Definition goodKeys (l : Ledger) : Prop :=
  NoDup (map fst l) /\ Forall (fun k => k <> "") (map fst l).

(** The record at position [i], if any, carries the USD profit of its own
    profit at [solPrice] and a balance that satisfies [okBalance]. *)
Definition enrichedAt (solPrice : Q) (okBalance : Q -> Prop) (l : Ledger)
  (i : nat) : Prop :=
  match nth_error l i with
  | Some (_, d) =>
      usdProfit d = (profit d * solPrice)%Q /\ okBalance (solBalance d)
  | None => True
  end.

(** A balance provider that is down. *)
Definition balanceDown {World : Type} (address : string) : M World Z :=
  fun w => (w, Throw {| message := Some "503 Service Unavailable" |}).

(** An error that is no rate limit but has 429 among its digits. *)
Definition blockNotAvailable : Error :=
  {| message := Some "Block 14290 not available" |}.

(** The sleep before retry number [i + 1]. *)
Definition backoff (i : nat) : Z := INITIAL_BACKOFF * 2 ^ Z.of_nat i.

(** An operation that is rate limited at every attempt. *)
Definition alwaysRateLimited (k : nat) : Outcome Z := Throw Script.tooManyRequests.

(** The options of the first request of a window, and of the request that
    follows the page [signatures]. *)
Definition firstRequest : SigOptions := {| limit := BATCH_SIZE; before := None |}.

Definition nextRequest (signatures : list SigInfo) : SigOptions :=
  {| limit := BATCH_SIZE;
     before :=
       truthyString
         (option_map signature
            (nth_error signatures (List.length signatures - 1))) |}.

(** A history that holds nothing. *)
Definition noHistory (k : nat) : list SigInfo := [].

(** Providers that are down, and a price provider that answers. *)
Definition serviceUnavailable : Error :=
  {| message := Some "503 Service Unavailable" |}.

Definition priceDown {World : Type} : M World Q :=
  fun w => (w, Throw serviceUnavailable).

Definition pagesDown {World : Type} (options : SigOptions)
  : M World (list SigInfo) :=
  fun w => (w, Throw serviceUnavailable).

(** The entries whose profit equals [p]. *)
Definition withProfit (p : Q) (l : list Entry) : list Entry :=
  filter (fun e => Qeq_bool (profit (entryData e)) p) l.

(** A first-time buyer: the token account exists only after the
    transaction. *)
Definition firstPurchase : Transaction :=
  tokenTransaction [] [tokenBalance (Some "A") 1000000000]
    [3000000000; 0] [1850000000; 1150000000].

(** ** The aggregator's arithmetic in IEEE doubles *)

(** Lines 261-281 and 332-333 with every [number] a binary64 float, as the
    program computes them. *)
Module Double.
Record TraderData := {
  profit : float;
  trades : float;
  totalVolume : float;
  successfulTrades : float;
  averageTradeSize : float;
  solBalance : float;
  usdProfit : float
}.

Definition newTrader : TraderData :=
  {| profit := 0; trades := 0; totalVolume := 0; successfulTrades := 0;
     averageTradeSize := 0; solBalance := 0; usdProfit := 0 |}.

(** Lines 273-281 on the record [trader]. *)
Definition applyChange (tradeValue change : float) (trader : TraderData)
  : TraderData :=
  let profit' := (profit trader + change / 1e9)%float in
  let trades' := (trades trader + 1)%float in
  let totalVolume' := (totalVolume trader + tradeValue)%float in
  let successfulTrades' :=
    if PrimFloat.ltb 0 change then (successfulTrades trader + 1)%float
    else successfulTrades trader in
  {| profit := profit';
     trades := trades';
     totalVolume := totalVolume';
     successfulTrades := successfulTrades';
     averageTradeSize := (totalVolume' / trades')%float;
     solBalance := solBalance trader;
     usdProfit := usdProfit trader |}.

(** Lines 332-333 on the record [data]. *)
Definition setBalances (balance solPrice : float) (data : TraderData)
  : TraderData :=
  {| profit := profit data;
     trades := trades data;
     totalVolume := totalVolume data;
     successfulTrades := successfulTrades data;
     averageTradeSize := averageTradeSize data;
     solBalance := balance;
     usdProfit := (profit data * solPrice)%float |}.


End Double.

(** * Properties *)

(** ** RateLimitedClient *)

Section RetryFacts.
Context {World : Type}.
Variable sleep : Z -> World -> World.
Context {T : Type}.
Variable operation : M World T.

Lemma withRetry_step (retryCount : nat) (w : World) :
  withRetry sleep operation retryCount w =
  match operation w with
  | (w1, Ok v) => (w1, Ok v)
  | (w1, Throw error) =>
      if isRateLimited error && (retryCount <? MAX_RETRIES)%nat
      then withRetry sleep operation (S retryCount)
             (sleep (INITIAL_BACKOFF * 2 ^ Z.of_nat retryCount) w1)
      else (w1, Throw error)
  end.
Proof.
  simp withRetry.
  destruct (operation w) as [w1 [v|error]];
    cbn [withRetry_clause_1 withRetry_unfold_clause_1]; [reflexivity|].
  destruct (Sumbool.sumbool_of_bool _) as [H|H];
    cbn [withRetry_unfold_clause_1_clause_2 withRetry_clause_1_clause_2];
    rewrite H; reflexivity.
Qed.

(** The wrapper returns what one of the attempts returned: the first one
    that is not a rate-limit failure, or the one made when the retry
    counter has reached [MAX_RETRIES]. *)
Lemma withRetry_attempts (n retryCount : nat) (w : World) :
  (MAX_RETRIES - retryCount <= n)%nat ->
  exists k,
    (retryCount + k <= Nat.max retryCount MAX_RETRIES)%nat
    /\ withRetry sleep operation retryCount w
       = operation (worldBefore sleep operation retryCount w k)
    /\ (forall i, (i < k)%nat ->
          rateLimitedAt operation (worldBefore sleep operation retryCount w i))
    /\ ((retryCount + k < MAX_RETRIES)%nat ->
          ~ rateLimitedAt operation (worldBefore sleep operation retryCount w k)).
Proof.
  revert retryCount w.
  induction n as [|n IH]; intros retryCount w Hn.
  - exists 0%nat. rewrite withRetry_step. cbn [worldBefore].
    replace (retryCount <? MAX_RETRIES)%nat with false
      by (symmetry; apply Nat.ltb_ge; lia).
    repeat split; try lia.
    destruct (operation w) as [w1 [v|e]]; [reflexivity|].
    rewrite andb_false_r. reflexivity.
  - rewrite withRetry_step.
    destruct (operation w) as [w1 [v|e]] eqn:Hop.
    + exists 0%nat. cbn [worldBefore]. rewrite Hop.
      repeat split; try lia.
      intros _ (e & He & _). rewrite Hop in He. discriminate He.
    + destruct (isRateLimited e && (retryCount <? MAX_RETRIES)%nat) eqn:Hretry.
      * apply andb_prop in Hretry as [H429 Hlt]. apply Nat.ltb_lt in Hlt.
        destruct (IH (S retryCount)
                    (sleep (INITIAL_BACKOFF * 2 ^ Z.of_nat retryCount) w1))
          as (k & Hk & Hres & Hbefore & Hlast); [lia|].
        exists (S k). cbn [worldBefore]. rewrite Hop. cbn [fst].
        repeat split.
        -- lia.
        -- exact Hres.
        -- intros [|i] Hi; cbn [worldBefore].
           ++ exists e. rewrite Hop. split; [reflexivity|exact H429].
           ++ rewrite Hop. cbn [fst]. apply Hbefore. lia.
        -- intros Hlt'. apply Hlast. lia.
      * exists 0%nat. cbn [worldBefore]. rewrite Hop.
        repeat split; try lia.
        intros Hlt (e' & He' & H429). rewrite Hop in He'. cbn [snd] in He'.
        injection He' as <-.
        rewrite H429 in Hretry. replace (retryCount <? MAX_RETRIES)%nat with true in Hretry
          by (symmetry; apply Nat.ltb_lt; lia).
        discriminate Hretry.
Qed.
End RetryFacts.

(** C3.  For every operation, world and sleep: the wrapper returns exactly
    what attempt [j] returned (same outcome, same world, so no later attempt
    and no later sleep) whenever attempts [0 .. j-1] failed rate limited
    (message containing 429; each followed by a sleep of
    [INITIAL_BACKOFF * 2 ^ i]) and attempt [j] either is not a rate-limit
    failure or is the one made after [MAX_RETRIES = 5] retries; such a [j],
    at most 5, always exists.  In particular, when attempts 1 to 4 fail rate
    limited and attempt 5 succeeds, the result is that of attempt 5. *)
Theorem withRetry_backoff_cap {World T : Type} (sleep : Z -> World -> World)
  (operation : M World T) (w : World) :
  let before := worldBefore sleep operation 0 w in
  (forall j, (j <= MAX_RETRIES)%nat ->
     (forall i, (i < j)%nat -> rateLimitedAt operation (before i)) ->
     j = MAX_RETRIES \/ ~ rateLimitedAt operation (before j) ->
     withRetry sleep operation 0 w = operation (before j))
  /\ (exists j, (j <= MAX_RETRIES)%nat
        /\ (forall i, (i < j)%nat -> rateLimitedAt operation (before i))
        /\ (j = MAX_RETRIES \/ ~ rateLimitedAt operation (before j)))
  /\ (forall v,
        (forall i, (i < 4)%nat -> rateLimitedAt operation (before i)) ->
        snd (operation (before 4%nat)) = Ok v ->
        withRetry sleep operation 0 w = (fst (operation (before 4%nat)), Ok v)).
Proof.
  intros before.
  destruct (withRetry_attempts sleep operation MAX_RETRIES 0 w)
    as (k & Hk & Hres & Hbefore & Hlast); [lia|].
  fold before in Hres, Hbefore, Hlast.
  assert (Hdet : forall j, (j <= MAX_RETRIES)%nat ->
     (forall i, (i < j)%nat -> rateLimitedAt operation (before i)) ->
     j = MAX_RETRIES \/ ~ rateLimitedAt operation (before j) ->
     withRetry sleep operation 0 w = operation (before j)).
  { intros j Hj Hearlier Hstop.
    assert (k = j) as <-; [|exact Hres].
    destruct (Nat.lt_trichotomy k j) as [Hlt|[Heq|Hgt]]; [|exact Heq|].
    - exfalso. apply Hlast; [lia|]. apply Hearlier. exact Hlt.
    - exfalso. destruct Hstop as [->|Hnot]; [lia|].
      apply Hnot. apply Hbefore. exact Hgt. }
  split; [exact Hdet|]. split.
  - exists k. split; [lia|]. split; [exact Hbefore|].
    destruct (Nat.eq_dec k MAX_RETRIES) as [->|Hne]; [left; reflexivity|].
    right. apply Hlast. lia.
  - intros v Hfour Hfifth.
    rewrite (Hdet 4%nat).
    + rewrite <- Hfifth. destruct (operation (before 4%nat)); reflexivity.
    + unfold MAX_RETRIES. lia.
    + exact Hfour.
    + right. intros (e & He & _). rewrite Hfifth in He. discriminate He.
Qed.

(** The scenario of C3 on a scripted operation: five attempts, the sleeps
    1000, 2000, 4000 and 8000 ms, and the value of the fifth attempt. *)
Lemma withRetry_backoff_cap_witness :
  withRetry Script.sleep (Script.scripted Script.fifthSucceeds) 0 Script.start
  = ({| Script.attemptsMade := 5; Script.sleeps := [1000; 2000; 4000; 8000] |},
     Ok 42).
Proof.
  destruct (withRetry_backoff_cap Script.sleep
              (Script.scripted Script.fifthSucceeds) Script.start)
    as (_ & _ & Hscenario).
  rewrite (Hscenario 42).
  - reflexivity.
  - intros i Hi.
    do 4 (destruct i as [|i];
          [exists Script.tooManyRequests; split; reflexivity|]).
    lia.
  - reflexivity.
Defined.

(** ** TransactionClassifier *)

Lemma pairChanged_iff (pres posts : list (option TokenBalance)) (i : nat) :
  pairChanged (at_index pres i) (at_index posts i) = true <->
  exists o a b, qualifyingPair pres posts i o a b /\ a <> b.
Proof.
  unfold pairChanged, qualifyingPair. split.
  - destruct (at_index pres i) as [pre|]; [|discriminate].
    destruct (at_index posts i) as [post|]; [|discriminate].
    destruct (truthyString (owner pre)) as [o|] eqn:Ho; [|discriminate].
    destruct (uiTokenAmount pre) as [preUi|] eqn:Hpre; [|discriminate].
    destruct (uiTokenAmount post) as [postUi|] eqn:Hpost; [|discriminate].
    intros H. apply Z.ltb_lt in H.
    exists o, (amount preUi), (amount postUi). split; [|lia].
    exists pre, post, preUi, postUi. repeat split; assumption.
  - intros (o & a & b & (pre & post & preUi & postUi
                         & -> & -> & -> & -> & -> & <- & <-) & Hne).
    apply Z.ltb_lt. lia.
Qed.

Lemma at_index_bound {A} (arr : list (option A)) (i : nat) (x : A) :
  at_index arr i = Some x -> (i < List.length arr)%nat.
Proof.
  unfold at_index. intros H. apply nth_error_Some.
  destruct (nth_error arr i); [discriminate|discriminate H].
Qed.

(** C7, as the code has it.  [isTradeTransaction] is true exactly when both
    token-balance lists are present and at some index both entries are
    present, the pre-entry carries a non-empty owner, both carry a parsed
    amount and the two amounts differ (the post-entry's owner is not
    examined); it is false, without throwing, when either list is absent. *)
Theorem isTradeTransaction_iff (transaction : option Transaction) :
  (isTradeTransaction transaction = true <->
   exists tx m pres posts,
     transaction = Some tx /\ meta tx = Some m
     /\ preTokenBalances m = Some pres /\ postTokenBalances m = Some posts
     /\ exists i o a b, qualifyingPair pres posts i o a b /\ a <> b)
  /\ (forall tx m,
        transaction = Some tx -> meta tx = Some m ->
        preTokenBalances m = None \/ postTokenBalances m = None ->
        isTradeTransaction transaction = false).
Proof.
  split.
  - unfold isTradeTransaction. split.
    + destruct transaction as [tx|]; [|discriminate].
      destruct (meta tx) as [m|] eqn:Hm; [|discriminate].
      destruct (preTokenBalances m) as [pres|] eqn:Hpre; [|discriminate].
      destruct (postTokenBalances m) as [posts|] eqn:Hpost; [|discriminate].
      intros H. apply existsb_exists in H as (i & _ & Hi).
      apply pairChanged_iff in Hi.
      exists tx, m, pres, posts. repeat split; try assumption.
      exists i. exact Hi.
    + intros (tx & m & pres & posts & -> & -> & -> & -> & i & Hi).
      apply existsb_exists. exists i. split.
      * apply in_seq. destruct Hi as (o & a & b & (pre & _ & _ & _ & Hpre & _) & _).
        apply at_index_bound in Hpre. lia.
      * apply pairChanged_iff. exact Hi.
  - intros tx m -> Hm Habsent. unfold isTradeTransaction. rewrite Hm.
    destruct Habsent as [-> | ->]; [reflexivity|].
    destruct (preTokenBalances m); reflexivity.
Qed.

(** A transaction whose only changed pair has an owner on the pre-entry
    alone is classified as a trade. *)
Lemma isTradeTransaction_iff_witness : isTradeTransaction (Some ownerDropped) = true.
Proof.
  apply (proj2 (proj1 (isTradeTransaction_iff (Some ownerDropped)))).
  eexists _, _, _, _. repeat split.
  exists 0%nat, "A", 1, 2. split; [|lia].
  unfold qualifyingPair. eexists _, _, _, _. repeat split.
Defined.

(** C7 as stated fails: the code answers true for [ownerDropped] although
    at no index do both entries carry an owner. *)
Lemma isTradeTransaction_both_owners_counterexample :
  isTradeTransaction (Some ownerDropped) = true
  /\ ~ (exists i a b,
          bothOwnedPair [tokenBalance (Some "A") 1] [tokenBalance None 2] i a b
          /\ a <> b).
Proof.
  split; [reflexivity|].
  intros (i & a & b & Hpair & _).
  destruct Hpair as (pre & post & po & qo & _ & _ & _ & Hpost & _ & Hq & _).
  destruct i as [|[|i]]; cbn in Hpost; try discriminate Hpost.
  injection Hpost as <-. discriminate Hq.
Qed.

(** ** LedgerAggregator *)

Lemma truthyString_nonempty (s : string) : s <> "" -> truthyString (Some s) = Some s.
Proof.
  intros Hs. unfold truthyString.
  destruct (String.eqb s "") eqn:E; [|reflexivity].
  apply String.eqb_eq in E. contradiction.
Qed.

Lemma truthyString_some (o : option string) (s : string) :
  truthyString o = Some s -> o = Some s /\ s <> "".
Proof.
  unfold truthyString. destruct o as [s'|]; [|discriminate].
  destruct (String.eqb s' "") eqn:E; [discriminate|].
  intros [= ->]. apply String.eqb_neq in E. split; [reflexivity|exact E].
Qed.

Lemma lookup_update_same (l : Ledger) (k : string) (f : TraderData -> TraderData) :
  lookup (update l k f) k = option_map f (lookup l k).
Proof.
  induction l as [|[k' d] l IH]; cbn [update lookup]; [reflexivity|].
  destruct (String.eqb k' k) eqn:E; cbn [lookup]; rewrite E; [reflexivity|exact IH].
Qed.

Lemma lookup_update_other (l : Ledger) (k k' : string) (f : TraderData -> TraderData) :
  k' <> k -> lookup (update l k f) k' = lookup l k'.
Proof.
  intros Hne. induction l as [|[k0 d] l IH]; cbn [update lookup]; [reflexivity|].
  destruct (String.eqb k0 k) eqn:E; cbn [lookup].
  - apply String.eqb_eq in E. subst k0.
    destruct (String.eqb k k') eqn:E'; [|reflexivity].
    apply String.eqb_eq in E'. congruence.
  - rewrite IH. reflexivity.
Qed.

Lemma lookup_app (l l' : Ledger) (k : string) :
  lookup (l ++ l') k = match lookup l k with Some d => Some d | None => lookup l' k end.
Proof.
  induction l as [|[k' d] l IH]; cbn [app lookup]; [reflexivity|].
  destruct (String.eqb k' k); [reflexivity|exact IH].
Qed.

Lemma update_absent (l l' : Ledger) (k : string) (f : TraderData -> TraderData) :
  lookup l k = None -> update (l ++ l') k f = l ++ update l' k f.
Proof.
  induction l as [|[k' d] l IH]; cbn [app lookup update]; [reflexivity|].
  destruct (String.eqb k' k); [discriminate|].
  intros H. rewrite (IH H). reflexivity.
Qed.

Lemma applyPair_qualifying (tradeValue : Q) (pres posts : list (option TokenBalance))
  (i : nat) (o : string) (a b : Z) (l : Ledger) :
  qualifyingPair pres posts i o a b ->
  applyPair tradeValue (at_index pres i) (at_index posts i) l =
  if b - a =? 0 then l
  else update (withTrader l o) o (applyChange tradeValue (b - a)).
Proof.
  intros (pre & post & preUi & postUi & -> & -> & Ho & Hpre & Hpost & <- & <-).
  unfold applyPair, withTrader. rewrite Ho, Hpre, Hpost. reflexivity.
Qed.

Lemma applyPair_not_qualifying (tradeValue : Q) (pre post : option TokenBalance)
  (l : Ledger) :
  pairChanged pre post = false -> applyPair tradeValue pre post l = l.
Proof.
  unfold pairChanged, applyPair.
  destruct pre as [pre|]; [|reflexivity].
  destruct post as [post|]; [|reflexivity].
  destruct (truthyString (owner pre)); [|reflexivity].
  destruct (uiTokenAmount pre) as [preUi|]; [|reflexivity].
  destruct (uiTokenAmount post) as [postUi|]; [|reflexivity].
  intros H. apply Z.ltb_ge in H.
  replace (amount postUi - amount preUi =? 0) with true
    by (symmetry; apply Z.eqb_eq; lia).
  reflexivity.
Qed.

Lemma lookup_withTrader (l : Ledger) (o : string) :
  lookup (withTrader l o) o
  = Some match lookup l o with Some d => d | None => newTrader end.
Proof.
  unfold withTrader. destruct (lookup l o) as [d|] eqn:E; [exact E|].
  rewrite lookup_app, E. cbn [lookup]. rewrite String.eqb_refl. reflexivity.
Qed.

Lemma lookup_withTrader_other (l : Ledger) (o k : string) :
  k <> o -> lookup (withTrader l o) k = lookup l k.
Proof.
  intros Hne. unfold withTrader. destruct (lookup l o); [reflexivity|].
  rewrite lookup_app. destruct (lookup l k); [reflexivity|].
  cbn [lookup]. destruct (String.eqb o k) eqn:E; [|reflexivity].
  apply String.eqb_eq in E. congruence.
Qed.

Lemma qualifyingPair_tokenBalance (pres posts : list (option TokenBalance))
  (i : nat) (o : string) (postOwner : option string) (a b : Z) :
  o <> "" ->
  nth_error pres i = Some (tokenBalance (Some o) a) ->
  nth_error posts i = Some (tokenBalance postOwner b) ->
  qualifyingPair pres posts i o a b.
Proof.
  intros Ho Hpre Hpost. unfold qualifyingPair, at_index. rewrite Hpre, Hpost.
  eexists _, _, _, _. repeat split. cbn [owner]. apply truthyString_nonempty, Ho.
Qed.

(** C5.  A transaction of trade value 2.3 whose two token-balance pairs give
    wallet [a] a delta of +5 and wallet [b] a delta of -5 (5000000000 raw
    units each), applied to the empty ledger, leaves exactly the records
    [a]: profit 5, trades 1, successfulTrades 1, totalVolume 2.3 and
    [b]: profit -5, trades 1, successfulTrades 0, totalVolume 2.3. *)
Theorem processTransaction_two_participants
  (tx : Transaction) (m : Meta) (a b : string) (preA preB : Z)
  (postOwnerA postOwnerB : option string) :
  meta tx = Some m ->
  preTokenBalances m
    = Some [tokenBalance (Some a) preA; tokenBalance (Some b) preB] ->
  postTokenBalances m
    = Some [tokenBalance postOwnerA (preA + 5000000000);
            tokenBalance postOwnerB (preB - 5000000000)] ->
  (calculateTradeValue (Some tx) == 23 # 10)%Q ->
  a <> "" -> b <> "" -> a <> b ->
  exists rA rB,
    processTransaction (Some tx) [] = [(a, rA); (b, rB)]
    /\ (profit rA == 5)%Q /\ trades rA = 1 /\ successfulTrades rA = 1
    /\ (totalVolume rA == 23 # 10)%Q
    /\ (profit rB == -5)%Q /\ trades rB = 1 /\ successfulTrades rB = 0
    /\ (totalVolume rB == 23 # 10)%Q.
Proof.
  intros Hm Hpre Hpost Hvalue Ha Hb Hab.
  set (pres := [tokenBalance (Some a) preA; tokenBalance (Some b) preB]) in *.
  set (posts := [tokenBalance postOwnerA (preA + 5000000000);
                 tokenBalance postOwnerB (preB - 5000000000)]) in *.
  assert (HA : qualifyingPair pres posts 0 a preA (preA + 5000000000))
    by (apply (qualifyingPair_tokenBalance _ _ _ _ postOwnerA); [exact Ha|reflexivity..]).
  assert (HB : qualifyingPair pres posts 1 b preB (preB - 5000000000))
    by (apply (qualifyingPair_tokenBalance _ _ _ _ postOwnerB); [exact Hb|reflexivity..]).
  assert (Htrade : isTradeTransaction (Some tx) = true).
  { unfold isTradeTransaction. rewrite Hm, Hpre, Hpost.
    apply existsb_exists. exists 0%nat. split; [left; reflexivity|].
    apply pairChanged_iff. exists a, preA, (preA + 5000000000).
    split; [exact HA|lia]. }
  assert (Hnonzero : Qeq_bool (calculateTradeValue (Some tx)) 0 = false).
  { destruct (Qeq_bool (calculateTradeValue (Some tx)) 0) eqn:E; [|reflexivity].
    apply Qeq_bool_eq in E. rewrite E in Hvalue. discriminate Hvalue. }
  exists (applyChange (calculateTradeValue (Some tx)) 5000000000 newTrader),
    (applyChange (calculateTradeValue (Some tx)) (-5000000000) newTrader).
  split.
  - unfold processTransaction.
    rewrite Hm, Htrade, Hnonzero, Hpre, Hpost. cbn [negb orEmpty].
    unfold applyTokenBalances. fold pres posts.
    change (seq 0 (List.length pres)) with [0%nat; 1%nat]. cbn [fold_left].
    rewrite (applyPair_qualifying _ _ _ _ _ _ _ _ HA).
    replace (preA + 5000000000 - preA) with 5000000000 by lia.
    change (5000000000 =? 0) with false. cbv iota.
    rewrite (applyPair_qualifying _ _ _ _ _ _ _ _ HB).
    replace (preB - 5000000000 - preB) with (-5000000000) by lia.
    change (-5000000000 =? 0) with false. cbv iota.
    unfold withTrader. cbn [lookup app update].
    rewrite String.eqb_refl. cbn [lookup app update].
    replace (String.eqb a b) with false by (symmetry; apply String.eqb_neq; exact Hab).
    cbn [lookup app update].
    replace (String.eqb a b) with false by (symmetry; apply String.eqb_neq; exact Hab).
    rewrite String.eqb_refl. reflexivity.
  - cbn [applyChange profit trades successfulTrades totalVolume newTrader].
    change (0 <? 5000000000) with true. change (0 <? -5000000000) with false.
    cbv iota.
    repeat split; try reflexivity; rewrite Qplus_0_l; exact Hvalue.
Qed.

(** The scenario of C5 on the transaction [twoParticipants]. *)
Lemma processTransaction_two_participants_witness :
  exists rA rB,
    processTransaction (Some twoParticipants) [] = [("A", rA); ("B", rB)]
    /\ (profit rA == 5)%Q /\ trades rA = 1 /\ successfulTrades rA = 1
    /\ (totalVolume rA == 23 # 10)%Q
    /\ (profit rB == -5)%Q /\ trades rB = 1 /\ successfulTrades rB = 0
    /\ (totalVolume rB == 23 # 10)%Q.
Proof.
  apply (processTransaction_two_participants twoParticipants _ "A" "B" 0 5000000000
           (Some "A") (Some "B") eq_refl eq_refl eq_refl).
  - vm_compute. reflexivity.
  - discriminate.
  - discriminate.
  - discriminate.
Defined.

(** C9.  The update for a token-balance pair is attributed through the
    pre-entry's owner alone.  Replacing the post-entry's owner by anything
    changes neither the classification nor the update; a qualifying pair
    with different amounts changes the record of the pre-owner (created when
    missing) and no other record, so nothing is credited to a different
    post-owner; and a pair whose pre-entry has no owner is skipped whatever
    the post-entry carries. *)
Theorem applyPair_pre_owner_only (tradeValue : Q)
  (pres posts : list (option TokenBalance)) (i : nat) (l : Ledger) :
  (forall pre post postOwner,
     let post' := {| owner := postOwner; uiTokenAmount := uiTokenAmount post |} in
     applyPair tradeValue (Some pre) (Some post) l
       = applyPair tradeValue (Some pre) (Some post') l
     /\ pairChanged (Some pre) (Some post) = pairChanged (Some pre) (Some post'))
  /\ (forall o a b,
        qualifyingPair pres posts i o a b -> a <> b ->
        let l' := applyPair tradeValue (at_index pres i) (at_index posts i) l in
        lookup l' o
          = Some (applyChange tradeValue (b - a)
                    match lookup l o with Some d => d | None => newTrader end)
        /\ forall k, k <> o -> lookup l' k = lookup l k)
  /\ (forall pre post,
        truthyString (owner pre) = None ->
        applyPair tradeValue (Some pre) post l = l
        /\ pairChanged (Some pre) post = false).
Proof.
  split; [|split].
  - intros pre post postOwner. split; reflexivity.
  - intros o a b Hpair Hne l'. subst l'.
    rewrite (applyPair_qualifying _ _ _ _ _ _ _ _ Hpair).
    replace (b - a =? 0) with false by (symmetry; apply Z.eqb_neq; lia).
    split.
    + rewrite lookup_update_same, lookup_withTrader. reflexivity.
    + intros k Hk. rewrite lookup_update_other by exact Hk.
      apply lookup_withTrader_other, Hk.
  - intros pre post Hnone. unfold applyPair, pairChanged.
    destruct post as [post|]; [|split; reflexivity].
    rewrite Hnone. split; reflexivity.
Qed.

(** When the owner of a token account changes from A to B, B receives no
    record. *)
Lemma applyPair_pre_owner_only_witness :
  lookup (applyPair (23 # 10) (tokenBalance (Some "A") 0)
            (tokenBalance (Some "B") 7) []) "B" = None.
Proof.
  refine (proj2 (proj1 (proj2
    (applyPair_pre_owner_only (23 # 10) [tokenBalance (Some "A") 0]
       [tokenBalance (Some "B") 7] 0 [])) "A" 0 7 _ _) "B" _).
  - apply (qualifyingPair_tokenBalance _ _ _ _ (Some "B")); [discriminate|reflexivity..].
  - lia.
  - discriminate.
Defined.

Lemma Qltb_lt (x y : Q) : Qltb x y = true <-> (x < y)%Q.
Proof.
  unfold Qltb. rewrite negb_true_iff. split.
  - intros H. apply Qnot_le_lt. intros Hle.
    apply Qle_bool_iff in Hle. congruence.
  - intros H. destruct (Qle_bool y x) eqn:E; [|reflexivity].
    apply Qle_bool_iff in E. exfalso. exact (Qlt_not_le _ _ H E).
Qed.

Lemma fold_left_nonneg {A : Type} (f : Q -> A -> Q) :
  (forall acc x, (0 <= acc)%Q -> (0 <= f acc x)%Q) ->
  forall l acc, (0 <= acc)%Q -> (0 <= fold_left f l acc)%Q.
Proof.
  intros Hf l. induction l as [|x l IH]; intros acc Hacc; [exact Hacc|].
  cbn [fold_left]. apply IH, Hf, Hacc.
Qed.

Lemma calculateTradeValue_nonneg (transaction : option Transaction) :
  (0 <= calculateTradeValue transaction)%Q.
Proof.
  unfold calculateTradeValue.
  destruct transaction as [tx|]; [|apply Qle_refl].
  destruct (meta tx) as [m|]; [|apply Qle_refl].
  destruct (preBalances m) as [pre|]; [|apply Qle_refl].
  destruct (postBalances m) as [post|]; [|apply Qle_refl].
  apply fold_left_nonneg; [|apply Qle_refl].
  intros totalChange i Htotal.
  destruct (nth_error pre i) as [preBalance|]; [|exact Htotal].
  destruct (nth_error post i) as [postBalance|]; [|exact Htotal].
  cbv zeta.
  destruct (Qltb _ _) eqn:E; [|exact Htotal].
  apply Qltb_lt in E.
  rewrite <- (Qplus_0_l 0). apply Qplus_le_compat; [exact Htotal|].
  apply Qlt_le_weak. eapply Qlt_trans; [|exact E]. reflexivity.
Qed.

(** What [applyChange] needs of the record it updates; the fresh record has
    it. *)
Lemma applyChange_invariant (tradeValue : Q) (change : Z) (d : TraderData) :
  (0 <= tradeValue)%Q ->
  0 <= trades d -> 0 <= successfulTrades d <= trades d -> (0 <= totalVolume d)%Q ->
  recordInvariant (applyChange tradeValue change d).
Proof.
  intros Hvalue Htrades Hwins Hvolume.
  unfold recordInvariant, applyChange.
  cbn [trades successfulTrades totalVolume averageTradeSize].
  split; [lia|]. split; [destruct (0 <? change); lia|]. split.
  - rewrite <- (Qplus_0_l 0). apply Qplus_le_compat; assumption.
  - rewrite Qmult_comm. apply Qmult_div_r.
    intros H. unfold Qeq in H. cbn in H. lia.
Qed.

Lemma recordInvariant_setBalances (balance solPrice : Q) (d : TraderData) :
  recordInvariant d -> recordInvariant (setBalances balance solPrice d).
Proof. intros H. exact H. Qed.

Lemma update_invariant (l : Ledger) (k : string) (f : TraderData -> TraderData) :
  (forall d, recordInvariant d -> recordInvariant (f d)) ->
  ledgerInvariant l -> ledgerInvariant (update l k f).
Proof.
  intros Hf. unfold ledgerInvariant.
  induction l as [|[k' d] l IH]; intros H; cbn [update]; [constructor|].
  inversion H as [|? ? Hd Hl]; subst.
  destruct (String.eqb k' k); constructor;
    [apply Hf, Hd | exact Hl | exact Hd | apply IH, Hl].
Qed.

Lemma updateAt_invariant (l : Ledger) (i : nat) (f : TraderData -> TraderData) :
  (forall d, recordInvariant d -> recordInvariant (f d)) ->
  ledgerInvariant l -> ledgerInvariant (updateAt i f l).
Proof.
  intros Hf. unfold ledgerInvariant. revert i.
  induction l as [|[k d] l IH]; intros i H; cbn [updateAt]; [constructor|].
  inversion H as [|? ? Hd Hl]; subst.
  destruct i as [|i]; constructor;
    [apply Hf, Hd | exact Hl | exact Hd | apply IH, Hl].
Qed.

Lemma applyPair_invariant (tradeValue : Q) (pre post : option TokenBalance)
  (l : Ledger) :
  (0 <= tradeValue)%Q ->
  ledgerInvariant l -> ledgerInvariant (applyPair tradeValue pre post l).
Proof.
  intros Hvalue Hl. unfold applyPair.
  destruct pre as [pre|]; [|exact Hl].
  destruct post as [post|]; [|exact Hl].
  destruct (truthyString (owner pre)) as [o|]; [|exact Hl].
  destruct (uiTokenAmount pre) as [preUi|]; [|exact Hl].
  destruct (uiTokenAmount post) as [postUi|]; [|exact Hl].
  cbv zeta. destruct (_ =? 0); [exact Hl|].
  destruct (lookup l o) as [d|] eqn:E.
  - apply update_invariant; [|exact Hl].
    intros d' (H1 & H2 & H3 & _). apply applyChange_invariant; [assumption|lia..|assumption].
  - rewrite update_absent by exact E. cbn [update]. rewrite String.eqb_refl.
    apply Forall_app. split; [exact Hl|].
    constructor; [|constructor]. cbn [snd].
    apply applyChange_invariant; cbn; try lia; [assumption|apply Qle_refl].
Qed.

Lemma processTransaction_invariant (transaction : option Transaction) (l : Ledger) :
  ledgerInvariant l -> ledgerInvariant (processTransaction transaction l).
Proof.
  intros Hl. unfold processTransaction.
  destruct transaction as [tx|]; [|exact Hl].
  destruct (meta tx) as [m|]; [|exact Hl].
  destruct (negb _); [exact Hl|].
  cbv zeta. destruct (Qeq_bool _ _); [exact Hl|].
  unfold applyTokenBalances.
  generalize (seq 0 (List.length (orEmpty (preTokenBalances m)))) as indices.
  intros indices. revert l Hl.
  induction indices as [|i indices IH]; intros l Hl; [exact Hl|].
  cbn [fold_left]. apply IH.
  apply applyPair_invariant; [apply calculateTradeValue_nonneg|exact Hl].
Qed.




(** ** Ranker / Reporter *)

Lemma nth_error_updateAt (l : Ledger) (i j : nat) (f : TraderData -> TraderData) :
  nth_error (updateAt i f l) j =
  match nth_error l j with
  | Some (k, d) => Some (k, if Nat.eqb i j then f d else d)
  | None => None
  end.
Proof.
  revert i j. induction l as [|[k d] l IH]; intros i j; cbn [updateAt].
  - destruct j; reflexivity.
  - destruct i as [|i], j as [|j]; cbn [nth_error Nat.eqb]; try reflexivity.
    + destruct (nth_error l j) as [[k' d']|]; reflexivity.
    + apply IH.
Qed.

Lemma sameTrading_refl (d : TraderData) : sameTrading d d.
Proof. repeat split. Qed.

Lemma sameTrading_trans (d1 d2 d3 : TraderData) :
  sameTrading d1 d2 -> sameTrading d2 d3 -> sameTrading d1 d3.
Proof.
  unfold sameTrading. intros (A1 & A2 & A3 & A4 & A5) (B1 & B2 & B3 & B4 & B5).
  repeat split; congruence.
Qed.

Lemma frameAt_refl (l : Ledger) (touched : list nat) : frameAt l l touched.
Proof.
  intros j. destruct (nth_error l j) as [[k d]|]; [|exact I].
  split; [reflexivity|]. split; [apply sameTrading_refl|reflexivity].
Qed.

Lemma frameAt_updateAt (l l' : Ledger) (i : nat) (balance solPrice : Q)
  (touched : list nat) :
  frameAt (updateAt i (setBalances balance solPrice) l) l' touched ->
  frameAt l l' (i :: touched).
Proof.
  intros H j. specialize (H j). rewrite nth_error_updateAt in H.
  destruct (nth_error l j) as [[k d]|]; [|exact H].
  destruct (nth_error l' j) as [[k' d']|]; [|exact H].
  destruct H as (Hk & Hsame & Hout). split; [exact Hk|]. split.
  - eapply sameTrading_trans; [|exact Hsame].
    destruct (Nat.eqb i j); repeat split.
  - intros Hnot. cbn [In] in Hnot.
    destruct (Nat.eqb i j) eqn:E.
    + apply Nat.eqb_eq in E. exfalso. apply Hnot. left. exact E.
    + apply Hout. intros Hin. apply Hnot. right. exact Hin.
Qed.

Lemma insertByProfit_In (a x : Entry) (l : list Entry) :
  In x (insertByProfit a l) <-> x = a \/ In x l.
Proof.
  induction l as [|b l IH]; cbn [insertByProfit In].
  - intuition congruence.
  - destruct (Qle_bool _ _); cbn [In]; [intuition congruence|].
    rewrite IH. intuition congruence.
Qed.

Lemma sortByProfit_In (x : Entry) (l : list Entry) :
  In x (sortByProfit l) <-> In x l.
Proof.
  induction l as [|a l IH]; cbn [sortByProfit fold_right In]; [reflexivity|].
  rewrite insertByProfit_In. fold (sortByProfit l). rewrite IH.
  intuition congruence.
Qed.

Lemma insertByProfit_sorted (a : Entry) (l : list Entry) :
  StronglySorted profitOrder l -> StronglySorted profitOrder (insertByProfit a l).
Proof.
  induction l as [|b l IH]; intros Hs; cbn [insertByProfit].
  - constructor; constructor.
  - inversion Hs as [|? ? Hl Hb]; subst.
    destruct (Qle_bool (profit (entryData b) - profit (entryData a)) 0) eqn:E.
    + apply Qle_bool_iff in E.
      assert (Hab : profitOrder a b).
      { unfold profitOrder. apply Qle_minus_iff in E.
        apply Qle_minus_iff. setoid_replace
          (profit (entryData a) + - profit (entryData b))%Q
          with (0 + - (profit (entryData b) - profit (entryData a)))%Q by ring.
        exact E. }
      constructor; [exact Hs|]. constructor; [exact Hab|].
      rewrite Forall_forall in Hb |- *. intros x Hx.
      unfold profitOrder in *. eapply Qle_trans; [apply Hb, Hx|exact Hab].
    + assert (Hba : profitOrder b a).
      { unfold profitOrder. apply Qlt_le_weak. apply Qnot_le_lt. intros Hle.
        assert (Hle' : (profit (entryData b) - profit (entryData a) <= 0)%Q).
        { apply Qle_minus_iff.
          setoid_replace (0 + - (profit (entryData b) - profit (entryData a)))%Q
            with (profit (entryData a) + - profit (entryData b))%Q by ring.
          apply Qle_minus_iff in Hle. exact Hle. }
        apply Qle_bool_iff in Hle'. congruence. }
      constructor; [apply IH, Hl|].
      rewrite Forall_forall in Hb |- *. intros x Hx.
      apply insertByProfit_In in Hx as [->|Hx]; [exact Hba|apply Hb, Hx].
Qed.

Lemma sortByProfit_sorted (l : list Entry) : StronglySorted profitOrder (sortByProfit l).
Proof.
  induction l as [|a l IH]; cbn [sortByProfit fold_right]; [constructor|].
  apply insertByProfit_sorted, IH.
Qed.

Lemma firstn_In {A} (n : nat) (l : list A) (x : A) : In x (firstn n l) -> In x l.
Proof.
  intros H. rewrite <- (firstn_skipn n l). apply in_or_app. left. exact H.
Qed.

Lemma StronglySorted_firstn {A} (R : A -> A -> Prop) (n : nat) (l : list A) :
  StronglySorted R l -> StronglySorted R (firstn n l).
Proof.
  revert n. induction l as [|a l IH]; intros n Hs.
  - destruct n; constructor.
  - destruct n as [|n]; cbn [firstn]; [constructor|].
    inversion Hs as [|? ? Hl Ha]; subst.
    constructor; [apply IH, Hl|].
    rewrite Forall_forall in Ha |- *. intros x Hx. apply Ha.
    eapply firstn_In, Hx.
Qed.

Lemma StronglySorted_map {A B} (R : B -> B -> Prop) (f : A -> B) (l : list A) :
  StronglySorted (fun x y => R (f x) (f y)) l -> StronglySorted R (map f l).
Proof.
  induction 1 as [|a l Hl IH Ha]; cbn [map]; constructor; [exact IH|].
  rewrite Forall_forall in Ha |- *. intros y Hy.
  apply in_map_iff in Hy as (x & <- & Hx). apply Ha, Hx.
Qed.

Lemma entries_nth_error (l : Ledger) (i : nat) (x : string * TraderData) :
  In (i, x) (entries l) -> nth_error l i = Some x.
Proof.
  unfold entries.
  assert (H : forall s, In (i, x) (combine (seq s (List.length l)) l) ->
                        (s <= i)%nat /\ nth_error l (i - s) = Some x).
  { induction l as [|y l IH]; intros s Hin; cbn in Hin; [contradiction|].
    destruct Hin as [Heq|Hin].
    - injection Heq as -> ->. rewrite Nat.sub_diag. split; [lia|reflexivity].
    - apply IH in Hin as [Hle Hnth]. split; [lia|].
      replace (i - s)%nat with (S (i - S s)) by lia. exact Hnth. }
  intros Hin. apply H in Hin as [_ Hnth]. rewrite Nat.sub_0_r in Hnth. exact Hnth.
Qed.

Lemma eligibleTraders_spec (l : Ledger) (e : Entry) :
  In e (eligibleTraders l) ->
  nth_error l (fst e) = Some (snd e) /\ isEligible (entryData e) = true.
Proof.
  unfold eligibleTraders. intros H.
  apply firstn_In, sortByProfit_In, filter_In in H as [Hin Hel].
  split; [|exact Hel]. destruct e as [i x]. apply entries_nth_error, Hin.
Qed.

Section ReportFacts.
Context {World : Type}.
Variable sleep : Z -> World -> World.
Variable getBalance : string -> M World Z.

Lemma getWalletSolBalance_returns (address : string) (w : World) :
  exists w' balance, getWalletSolBalance getBalance address w = (w', Ok balance).
Proof.
  unfold getWalletSolBalance, tryCatch, bind, ret.
  destruct (getBalance address w) as [w1 [b|e]]; eexists _, _; reflexivity.
Qed.

Lemma updateBalances_frame (solPrice : Q) (eligible : list Entry) :
  forall (l : Ledger) (w : World),
  exists w' l',
    updateBalances sleep getBalance solPrice eligible l w = (w', Ok l')
    /\ frameAt l l' (map fst eligible).
Proof.
  induction eligible as [|[i [address d]] rest IH]; intros l w.
  - exists w, l. split; [reflexivity|apply frameAt_refl].
  - cbn [updateBalances]. unfold bind at 1. unfold doSleep at 1.
    unfold bind at 1.
    destruct (getWalletSolBalance_returns address (sleep BASE_DELAY w))
      as (w1 & balance & ->).
    destruct (IH (updateAt i (setBalances balance solPrice) l) w1)
      as (w' & l' & -> & Hframe).
    exists w', l'. split; [reflexivity|].
    cbn [map fst]. eapply frameAt_updateAt, Hframe.
Qed.

Lemma displayResults_returns (ledger : Ledger) (solPrice : Q) (w : World) :
  exists w' ledger',
    displayResults sleep getBalance ledger solPrice w
    = (w', Ok (ledger', map (readEntry ledger') (eligibleTraders ledger)))
    /\ frameAt ledger ledger' (map fst (eligibleTraders ledger)).
Proof.
  unfold displayResults, bind.
  destruct (updateBalances_frame solPrice (eligibleTraders ledger) ledger w)
    as (w' & l' & -> & Hframe).
  exists w', l'. split; [reflexivity|exact Hframe].
Qed.

(** The row printed for a selected entry carries the trading figures the
    entry was selected with. *)
Lemma readEntry_sameTrading (ledger ledger' : Ledger) (touched : list nat) (e : Entry) :
  frameAt ledger ledger' touched ->
  nth_error ledger (fst e) = Some (snd e) ->
  sameTrading (entryData e) (snd (readEntry ledger' e)).
Proof.
  intros Hframe Hnth. specialize (Hframe (fst e)). rewrite Hnth in Hframe.
  destruct e as [i [k d]]. cbn [fst snd] in *.
  unfold readEntry, entryData. cbn [fst snd].
  destruct (nth_error ledger' i) as [[k' d']|] eqn:E; [|contradiction].
  destruct Hframe as (_ & Hsame & _).
  rewrite (nth_error_nth (map snd ledger') i d (x := d')); [exact Hsame|].
  rewrite nth_error_map, E. reflexivity.
Qed.

(** C4.  The rows of a report, for every ledger: each row has trades >= 3,
    profit > 0 and successfulTrades / trades strictly above 1/2 (so never
    equal to 1/2); the rows are in descending order of profit; there are at
    most 10 of them. *)
Theorem displayResults_top_traders (ledger : Ledger) (solPrice : Q) (w : World) :
  exists w' ledger' rows,
    displayResults sleep getBalance ledger solPrice w = (w', Ok (ledger', rows))
    /\ Forall
         (fun row =>
            let data := snd row in
            3 <= trades data
            /\ (0 < profit data)%Q
            /\ (1 # 2 < inject_Z (successfulTrades data) / inject_Z (trades data))%Q
            /\ ~ (inject_Z (successfulTrades data) / inject_Z (trades data) == 1 # 2)%Q)
         rows
    /\ StronglySorted (fun p q => (q <= p)%Q)
         (map (fun row => profit (snd row)) rows)
    /\ (List.length rows <= 10)%nat.
Proof.
  destruct (displayResults_returns ledger solPrice w) as (w' & ledger' & Hrun & Hframe).
  exists w', ledger', (map (readEntry ledger') (eligibleTraders ledger)).
  split; [exact Hrun|].
  assert (Hrow : forall e, In e (eligibleTraders ledger) ->
            sameTrading (entryData e) (snd (readEntry ledger' e))
            /\ isEligible (entryData e) = true).
  { intros e He. apply eligibleTraders_spec in He as [Hnth Hel].
    split; [|exact Hel]. eapply readEntry_sameTrading; eassumption. }
  split; [|split].
  - rewrite Forall_forall. intros row Hin.
    apply in_map_iff in Hin as (e & <- & He).
    destruct (Hrow e He) as ((Hp & Ht & _ & Hs & _) & Hel).
    cbv zeta. rewrite Hp, Ht, Hs.
    unfold isEligible in Hel.
    apply andb_prop in Hel as [Hel Hrate]. apply andb_prop in Hel as [Hmin Hprofit].
    apply Z.leb_le in Hmin. apply Qltb_lt in Hprofit. apply Qltb_lt in Hrate.
    repeat split; try assumption.
    intros Heq. rewrite Heq in Hrate. exact (Qlt_irrefl _ Hrate).
  - rewrite map_map.
    rewrite (map_ext_in _ (fun e => profit (entryData e))).
    + apply StronglySorted_map. unfold eligibleTraders.
      apply StronglySorted_firstn. apply sortByProfit_sorted.
    + intros e He. destruct (Hrow e He) as ((Hp & _) & _). exact Hp.
  - rewrite length_map. unfold eligibleTraders. apply firstn_le_length.
Qed.

(** C10.  A report changes nothing in the ledger but [solBalance] and
    [usdProfit] of the selected records, of which there are at most 10:
    every record keeps its position, address, profit, trades, totalVolume,
    successfulTrades and averageTradeSize, and a record that is not
    selected is unchanged in every field. *)
Theorem displayResults_frame (ledger : Ledger) (solPrice : Q) (w : World) :
  exists w' ledger' rows,
    displayResults sleep getBalance ledger solPrice w = (w', Ok (ledger', rows))
    /\ (List.length (eligibleTraders ledger) <= 10)%nat
    /\ List.length ledger' = List.length ledger
    /\ forall i address d,
         nth_error ledger i = Some (address, d) ->
         exists d',
           nth_error ledger' i = Some (address, d')
           /\ profit d' = profit d /\ trades d' = trades d
           /\ totalVolume d' = totalVolume d
           /\ successfulTrades d' = successfulTrades d
           /\ averageTradeSize d' = averageTradeSize d
           /\ (~ In i (map fst (eligibleTraders ledger)) -> d' = d).
Proof.
  destruct (displayResults_returns ledger solPrice w) as (w' & ledger' & Hrun & Hframe).
  exists w', ledger', (map (readEntry ledger') (eligibleTraders ledger)).
  split; [exact Hrun|]. split; [apply firstn_le_length|]. split.
  - destruct (Nat.lt_trichotomy (List.length ledger') (List.length ledger))
      as [Hlt|[Heq|Hgt]]; [|exact Heq|]; exfalso.
    + specialize (Hframe (List.length ledger')).
      destruct (nth_error ledger (List.length ledger')) as [[k d]|] eqn:E.
      * rewrite (proj2 (nth_error_None ledger' _)) in Hframe by lia. exact Hframe.
      * apply nth_error_None in E. lia.
    + specialize (Hframe (List.length ledger)).
      rewrite (proj2 (nth_error_None ledger _)) in Hframe by lia.
      destruct (nth_error ledger' (List.length ledger)) eqn:E; [exact Hframe|].
      apply nth_error_None in E. lia.
  - intros i address d Hnth. specialize (Hframe i). rewrite Hnth in Hframe.
    destruct (nth_error ledger' i) as [[k' d']|]; [|contradiction].
    destruct Hframe as (-> & (H1 & H2 & H3 & H4 & H5) & Hout).
    exists d'. repeat split; assumption.
Qed.
End ReportFacts.

(** ** SignaturePaginator *)

Section LoopFacts.
Context {World : Type}.
Variable sleep : Z -> World -> World.
Variable getSignaturesForAddress : SigOptions -> M World (list SigInfo).
Variable getTransaction : string -> M World (option Transaction).
Variable getBalance : string -> M World Z.
Variables (now ms : Z) (solPrice : Q).

Let loop := windowLoop sleep getSignaturesForAddress getTransaction getBalance
              now ms solPrice.

Lemma withRetry_is_attempt {T : Type} (operation : M World T) (retryCount : nat)
  (w : World) :
  exists w1, withRetry sleep operation retryCount w = operation w1.
Proof.
  destruct (withRetry_attempts sleep operation (MAX_RETRIES - retryCount)
              retryCount w (Nat.le_refl _)) as (k & _ & Hres & _).
  eexists. exact Hres.
Qed.

Lemma processSignatures_returns (sigs : list SigInfo) :
  forall (l : Ledger) (w : World),
  exists w' l', processSignatures sleep getTransaction sigs l w = (w', Ok l').
Proof.
  induction sigs as [|sig rest IH]; intros l w; cbn [processSignatures].
  - eexists _, _. reflexivity.
  - unfold bind at 1. unfold tryCatch, bind, doSleep, ret.
    destruct (withRetry sleep (getTransaction (signature sig)) 0 (sleep BASE_DELAY w))
      as [w1 [transaction|e]]; apply IH.
Qed.

Lemma processAndDisplay_returns (st : LoopState) (w : World) :
  exists w' l',
    processAndDisplay sleep getTransaction getBalance solPrice st w
    = (w', Ok (withLedger st l')).
Proof.
  unfold processAndDisplay. unfold bind at 1.
  destruct (processSignatures_returns (allSignatures st) (profitTraders st) w)
    as (w1 & l1 & ->).
  unfold bind at 1.
  destruct (displayResults_returns sleep getBalance l1 solPrice w1)
    as (w2 & l2 & -> & _).
  eexists _, _. reflexivity.
Qed.

(** A property of the loop variables that every accepted page and every
    ledger update preserve holds when the loop ends. *)
Lemma windowLoop_invariant (pageOk : list SigInfo -> Prop) (P : LoopState -> Prop) :
  everyPage getSignaturesForAddress pageOk ->
  (forall st l, P st -> P (withLedger st l)) ->
  (forall st signatures,
     P st -> keepFetching st = true ->
     totalFetched st < MAX_TRANSACTIONS_PER_INTERVAL ->
     pageOk signatures -> signatures <> [] ->
     P (accumulate now ms signatures st)) ->
  forall fuel st w w' st',
    P st -> loop fuel st w = (w', Ok (Some st')) -> P st'.
Proof.
  intros Hpage Hledger Hacc. unfold loop.
  induction fuel as [|fuel IH]; intros st w w' st' HP Hrun; cbn [windowLoop] in Hrun;
    destruct (keepFetching st && (totalFetched st <? MAX_TRANSACTIONS_PER_INTERVAL))
      eqn:Hcond;
    try (injection Hrun as _ <-; exact HP); try discriminate Hrun.
  apply andb_prop in Hcond as [Hkeep Hlt]. apply Z.ltb_lt in Hlt.
  unfold bind at 1 in Hrun.
  match type of Hrun with
  | context [withRetry sleep ?op 0 w] =>
      destruct (withRetry_is_attempt op 0 w) as (w0 & Hattempt);
      destruct (withRetry sleep op 0 w) as [w1 [signatures|e]]
  end; [|discriminate Hrun].
  symmetry in Hattempt. apply Hpage in Hattempt; [|reflexivity].
  destruct (List.length signatures =? 0)%nat eqn:Hlen;
    [injection Hrun as _ <-; exact HP|].
  assert (Hne : signatures <> [])
    by (intros ->; discriminate Hlen).
  pose proof (Hacc st signatures HP Hkeep Hlt Hattempt Hne) as HP1.
  unfold bind at 1 in Hrun.
  destruct (_ || _) in Hrun.
  - destruct (processAndDisplay_returns (accumulate now ms signatures st) w1)
      as (w2 & l2 & Hshown).
    rewrite Hshown in Hrun. unfold bind, doSleep in Hrun.
    eapply IH; [|exact Hrun]. apply Hledger, HP1.
  - unfold ret, bind, doSleep in Hrun.
    eapply IH; [|exact Hrun]. exact HP1.
Qed.

(** The loop ends: 800 rounds of fuel are never used up. *)
Lemma windowLoop_terminates :
  forall fuel st w,
    MAX_TRANSACTIONS_PER_INTERVAL - totalFetched st <= Z.of_nat fuel ->
    snd (loop fuel st w) <> Ok None.
Proof.
  unfold loop.
  induction fuel as [|fuel IH]; intros st w Hfuel; cbn [windowLoop];
    destruct (keepFetching st && (totalFetched st <? MAX_TRANSACTIONS_PER_INTERVAL))
      eqn:Hcond;
    try (cbn; discriminate).
  - apply andb_prop in Hcond as [_ Hlt]. apply Z.ltb_lt in Hlt. lia.
  - apply andb_prop in Hcond as [_ Hlt]. apply Z.ltb_lt in Hlt.
    unfold bind at 1.
    match goal with
    | |- context [withRetry sleep ?op 0 w] =>
        destruct (withRetry sleep op 0 w) as [w1 [signatures|e]]
    end; [|cbn; discriminate].
    destruct (List.length signatures =? 0)%nat eqn:Hlen; [cbn; discriminate|].
    apply Nat.eqb_neq in Hlen.
    assert (Hstep : MAX_TRANSACTIONS_PER_INTERVAL
                    - totalFetched (accumulate now ms signatures st)
                    <= Z.of_nat fuel)
      by (cbn [accumulate totalFetched]; lia).
    unfold bind at 1.
    destruct (_ || _).
    + destruct (processAndDisplay_returns (accumulate now ms signatures st) w1)
        as (w2 & l2 & ->).
      unfold bind, doSleep. apply IH. exact Hstep.
    + unfold ret, bind, doSleep. apply IH. exact Hstep.
Qed.
End LoopFacts.

Lemma accumulate_length (now ms : Z) (signatures : list SigInfo) (st : LoopState) :
  (List.length (allSignatures (accumulate now ms signatures st))
   <= List.length (allSignatures st) + List.length signatures)%nat.
Proof.
  cbn [accumulate allSignatures].
  destruct (_ <? _); rewrite length_app; [|lia].
  pose proof (filter_length_le
                (fun sig => now - ms <=? timeOf (Some sig)) signatures). lia.
Qed.

Lemma windowFuel_enough :
  MAX_TRANSACTIONS_PER_INTERVAL - totalFetched initialState <= Z.of_nat windowFuel.
Proof.
  unfold windowFuel, MAX_TRANSACTIONS_PER_INTERVAL.
  rewrite Z2Nat.id; cbn [totalFetched initialState]; lia.
Qed.

Section WindowFacts.
Context {World : Type}.
Variable sleep : Z -> World -> World.
Variable getSignaturesForAddress : SigOptions -> M World (list SigInfo).
Variable getTransaction : string -> M World (option Transaction).
Variable getBalance : string -> M World Z.
Variables (now ms : Z) (solPrice : Q).

Let loop := windowLoop sleep getSignaturesForAddress getTransaction getBalance
              now ms solPrice.

(** C8, as the code has it.  For every provider the pagination loop of a
    window ends within 800 rounds.  When every page requested with limit 50
    holds at most 50 signatures, at most 849 signatures are fetched and
    accumulated (the cap is tested before a page is requested and a page is
    never cut), hence fewer than the 1000 of [MAX_TRANSACTIONS]; when every
    such page is empty or full, at most 800. *)
Theorem windowLoop_terminates_bounded (w : World) :
  snd (loop windowFuel initialState w) <> Ok None
  /\ (everyPage getSignaturesForAddress withinLimit ->
      forall fuel w' st,
        loop fuel initialState w = (w', Ok (Some st)) ->
        Z.of_nat (List.length (allSignatures st)) <= totalFetched st
        /\ totalFetched st <= MAX_TRANSACTIONS_PER_INTERVAL + BATCH_SIZE - 1
        /\ totalFetched st < MAX_TRANSACTIONS)
  /\ (everyPage getSignaturesForAddress fullOrEmpty ->
      forall fuel w' st,
        loop fuel initialState w = (w', Ok (Some st)) ->
        Z.of_nat (List.length (allSignatures st)) <= totalFetched st
        /\ totalFetched st <= MAX_TRANSACTIONS_PER_INTERVAL).
Proof.
  split; [|split].
  - apply windowLoop_terminates, windowFuel_enough.
  - intros Hpages fuel w' st Hrun.
    assert (H : Z.of_nat (List.length (allSignatures st)) <= totalFetched st
                /\ totalFetched st <= MAX_TRANSACTIONS_PER_INTERVAL + BATCH_SIZE - 1).
    { refine (windowLoop_invariant sleep getSignaturesForAddress getTransaction
                getBalance now ms solPrice withinLimit
                (fun st => Z.of_nat (List.length (allSignatures st)) <= totalFetched st
                           /\ totalFetched st
                              <= MAX_TRANSACTIONS_PER_INTERVAL + BATCH_SIZE - 1)
                Hpages _ _ fuel initialState w w' st _ Hrun).
      - intros st0 l H. exact H.
      - intros st0 signatures [Hlen Htotal] _ Hlt Hpage _.
        pose proof (accumulate_length now ms signatures st0) as Hacc.
        unfold withinLimit in Hpage. cbn [accumulate totalFetched].
        split; lia.
      - cbn. unfold MAX_TRANSACTIONS_PER_INTERVAL, BATCH_SIZE. lia. }
    destruct H as [H1 H2]. repeat split; try assumption.
    unfold MAX_TRANSACTIONS_PER_INTERVAL, BATCH_SIZE, MAX_TRANSACTIONS in *. lia.
  - intros Hpages fuel w' st Hrun.
    assert (H : Z.of_nat (List.length (allSignatures st)) <= totalFetched st
                /\ totalFetched st <= MAX_TRANSACTIONS_PER_INTERVAL
                /\ exists k, totalFetched st = BATCH_SIZE * k).
    { refine (windowLoop_invariant sleep getSignaturesForAddress getTransaction
                getBalance now ms solPrice fullOrEmpty
                (fun st => Z.of_nat (List.length (allSignatures st)) <= totalFetched st
                           /\ totalFetched st <= MAX_TRANSACTIONS_PER_INTERVAL
                           /\ exists k, totalFetched st = BATCH_SIZE * k)
                Hpages _ _ fuel initialState w w' st _ Hrun).
      - intros st0 l H. exact H.
      - intros st0 signatures (Hlen & Htotal & k & Hk) _ Hlt Hpage Hne.
        destruct Hpage as [->|Hfull]; [contradiction|].
        pose proof (accumulate_length now ms signatures st0) as Hacc.
        cbn [accumulate totalFetched].
        unfold MAX_TRANSACTIONS_PER_INTERVAL, BATCH_SIZE in *.
        split; [lia|]. split; [lia|]. exists (k + 1). lia.
      - cbn. split; [lia|]. split; [unfold MAX_TRANSACTIONS_PER_INTERVAL; lia|].
        exists 0. reflexivity. }
    destruct H as (H1 & H2 & _). split; assumption.
Qed.

(** What the test of the last signature alone gives.  When no signature of
    a page is older than the page's last one (a missing block time counting
    as time 0), the
    accumulated list holds no signature older than [now - ms].  A missing
    block time is read as time 0; a page whose last signature has none, in a
    window that starts after time 0, is filtered down to the signatures
    inside the window and ends the pagination: the loop returns without a
    further request. *)
Theorem windowLoop_in_window (w : World) :
  (everyPage getSignaturesForAddress oldestLast ->
   forall fuel w' st,
     loop fuel initialState w = (w', Ok (Some st)) ->
     Forall (inWindow now ms) (allSignatures st))
  /\ (forall sig, blockTime sig = None -> timeOf (Some sig) = 0)
  /\ (forall signatures sig st,
        nth_error signatures (List.length signatures - 1) = Some sig ->
        blockTime sig = None -> ms < now ->
        let st' := accumulate now ms signatures st in
        keepFetching st' = false
        /\ (exists valid,
              allSignatures st' = allSignatures st ++ valid
              /\ Forall (inWindow now ms) valid /\ ~ In sig valid)
        /\ forall fuel w1, loop fuel st' w1 = (w1, Ok (Some st'))).
Proof.
  split; [|split].
  - intros Hpages fuel w' st Hrun.
    refine (windowLoop_invariant sleep getSignaturesForAddress getTransaction
              getBalance now ms solPrice oldestLast
              (fun st => Forall (inWindow now ms) (allSignatures st))
              Hpages _ _ fuel initialState w w' st _ Hrun).
    + intros st0 l H. exact H.
    + intros st0 signatures Hall _ _ Hpage _. cbn [accumulate allSignatures].
      destruct (_ <? _) eqn:Hold; apply Forall_app; (split; [exact Hall|]);
        rewrite Forall_forall; intros sig Hin.
      * apply filter_In in Hin as [_ Hin]. apply Z.leb_le in Hin. exact Hin.
      * apply Z.ltb_ge in Hold. unfold inWindow.
        pose proof (Hpage sig Hin). lia.
    + constructor.
  - intros sig Hnone. unfold timeOf. rewrite Hnone. reflexivity.
  - intros signatures sig st Hlast Hnone Hwindow st'. subst st'.
    assert (Hold : (timeOf (nth_error signatures (List.length signatures - 1))
                    <? now - ms) = true).
    { rewrite Hlast. unfold timeOf. rewrite Hnone. apply Z.ltb_lt. lia. }
    assert (Hkeep : keepFetching (accumulate now ms signatures st) = false).
    { cbn [accumulate keepFetching]. rewrite Hold.
      destruct (_ <=? _); reflexivity. }
    split; [exact Hkeep|]. split.
    + cbn [accumulate allSignatures]. rewrite Hold.
      eexists. split; [reflexivity|]. split.
      * rewrite Forall_forall. intros s Hin.
        apply filter_In in Hin as [_ Hin]. apply Z.leb_le in Hin. exact Hin.
      * intros Hin. apply filter_In in Hin as [_ Hin]. apply Z.leb_le in Hin.
        unfold timeOf in Hin. rewrite Hnone in Hin. lia.
    + intros fuel w1. unfold loop.
      destruct fuel; cbn [windowLoop]; rewrite Hkeep; reflexivity.
Qed.
End WindowFacts.

(** ** Runs against the scripted provider *)

Lemma shortPages_withinLimit :
  everyPage (Chain.getSignaturesForAddress Chain.shortPages) withinLimit.
Proof.
  intros options w w' signatures _ H.
  unfold Chain.getSignaturesForAddress in H. injection H as _ <-.
  unfold withinLimit, Chain.shortPages, Chain.page.
  rewrite length_map, length_seq. unfold BATCH_SIZE. lia.
Qed.

Lemma onePerPage_oldestLast :
  everyPage (Chain.getSignaturesForAddress Chain.onePerPage) oldestLast.
Proof.
  intros options w w' signatures _ H.
  unfold Chain.getSignaturesForAddress in H. injection H as _ <-.
  unfold Chain.onePerPage, Chain.page. cbn [seq map List.length Nat.sub nth_error].
  intros sig [<-|[]]. apply Z.le_refl.
Qed.

Lemma fullPages_fullOrEmpty :
  everyPage (Chain.getSignaturesForAddress Chain.fullPages) fullOrEmpty.
Proof.
  intros options w w' signatures _ H.
  unfold Chain.getSignaturesForAddress in H. injection H as _ <-.
  right. unfold Chain.fullPages, Chain.page.
  rewrite length_map, length_seq. reflexivity.
Qed.

(** With pages of 49 signatures the loop ends within the bound of 849; with
    full pages it ends at 800 signatures. *)
Lemma windowLoop_terminates_bounded_witness :
  (exists w' st,
     windowLoop Chain.sleep (Chain.getSignaturesForAddress Chain.shortPages)
       (Chain.getTransaction Chain.noTransactions) Chain.getBalance
       Chain.now Chain.ms 150 windowFuel initialState Chain.start
     = (w', Ok (Some st))
     /\ Z.of_nat (List.length (allSignatures st)) <= totalFetched st
     /\ totalFetched st <= MAX_TRANSACTIONS_PER_INTERVAL + BATCH_SIZE - 1
     /\ totalFetched st < MAX_TRANSACTIONS)
  /\ (exists w' st,
        windowLoop Chain.sleep (Chain.getSignaturesForAddress Chain.fullPages)
          (Chain.getTransaction Chain.noTransactions) Chain.getBalance
          Chain.now Chain.ms 150 windowFuel initialState Chain.start
        = (w', Ok (Some st))
        /\ Z.of_nat (List.length (allSignatures st)) <= totalFetched st
        /\ totalFetched st <= MAX_TRANSACTIONS_PER_INTERVAL).
Proof.
  split.
  - eexists _, _. split; [vm_compute; reflexivity|].
    eapply (proj1 (proj2 (windowLoop_terminates_bounded Chain.sleep
             (Chain.getSignaturesForAddress Chain.shortPages)
             (Chain.getTransaction Chain.noTransactions) Chain.getBalance
             Chain.now Chain.ms 150 Chain.start))
           shortPages_withinLimit windowFuel _ _).
    vm_compute. reflexivity.
  - eexists _, _. split; [vm_compute; reflexivity|].
    eapply (proj2 (proj2 (windowLoop_terminates_bounded Chain.sleep
             (Chain.getSignaturesForAddress Chain.fullPages)
             (Chain.getTransaction Chain.noTransactions) Chain.getBalance
             Chain.now Chain.ms 150 Chain.start))
           fullPages_fullOrEmpty windowFuel _ _).
    vm_compute. reflexivity.
Defined.

(** C8 as stated fails: pages of 49 signatures, each within the requested
    limit, are accumulated up to 833 signatures, beyond the cap of 800. *)
Lemma windowLoop_cap_counterexample :
  exists w' st,
    windowLoop Chain.sleep (Chain.getSignaturesForAddress Chain.shortPages)
      (Chain.getTransaction Chain.noTransactions) Chain.getBalance
      Chain.now Chain.ms 150 windowFuel initialState Chain.start
    = (w', Ok (Some st))
    /\ List.length (allSignatures st) = 833%nat
    /\ MAX_TRANSACTIONS_PER_INTERVAL < Z.of_nat (List.length (allSignatures st)).
Proof.
  eexists _, _. split; [vm_compute; reflexivity|].
  split; vm_compute; reflexivity.
Qed.

(** With one signature per page the accumulated signatures are those inside
    the window; the page [Chain.nullLast] ends the pagination. *)
Lemma windowLoop_in_window_witness :
  (exists w' st,
     windowLoop Chain.sleep (Chain.getSignaturesForAddress Chain.onePerPage)
       (Chain.getTransaction Chain.noTransactions) Chain.getBalance
       Chain.now Chain.ms 150 windowFuel initialState Chain.start
     = (w', Ok (Some st))
     /\ Forall (inWindow Chain.now Chain.ms) (allSignatures st))
  /\ keepFetching (accumulate Chain.now Chain.ms Chain.nullLast initialState) = false.
Proof.
  pose proof (windowLoop_in_window Chain.sleep
                (Chain.getSignaturesForAddress Chain.onePerPage)
                (Chain.getTransaction Chain.noTransactions) Chain.getBalance
                Chain.now Chain.ms 150 Chain.start) as (Hwindow & _ & Hnull).
  split.
  - eexists _, _. split; [vm_compute; reflexivity|].
    eapply (Hwindow onePerPage_oldestLast windowFuel _ _).
    vm_compute. reflexivity.
  - refine (proj1 (Hnull Chain.nullLast {| signature := "s2"; blockTime := None |}
                     initialState eq_refl eq_refl _)).
    reflexivity.
Defined.

(** C2 fails on the code.  Only the last signature of a page is tested
    (lines 206-208): a signature without block time in the middle of a page
    whose last signature lies inside the window is accumulated by the branch
    of lines 216-218, although the filter of lines 210-213 reads it as time
    0, older than the start of the window, and the pagination goes on to
    request a second page. *)
Lemma windowLoop_null_blockTime_counterexample :
  exists w' st,
    windowLoop Chain.sleep (Chain.getSignaturesForAddress Chain.nullInside)
      (Chain.getTransaction Chain.noTransactions) Chain.getBalance
      Chain.now Chain.ms 150 windowFuel initialState Chain.start
    = (w', Ok (Some st))
    /\ In {| signature := "s2"; blockTime := None |} (allSignatures st)
    /\ timeOf (Some {| signature := "s2"; blockTime := None |}) < Chain.now - Chain.ms
    /\ ~ Forall (inWindow Chain.now Chain.ms) (allSignatures st)
    /\ Chain.pageRequests w' = 2%nat.
Proof.
  eexists _, _. split; [vm_compute; reflexivity|].
  split; [right; left; reflexivity|].
  split; [reflexivity|]. split; [|reflexivity].
  intros H. inversion H as [|? ? _ H']; subst.
  inversion H' as [|? ? Hnull _]; subst.
  unfold inWindow in Hnull. vm_compute in Hnull. apply Hnull. reflexivity.
Qed.

(** A report on [Chain.sampleLedger] leaves the unselected wallet B as it
    was. *)
Lemma displayResults_frame_witness :
  exists w' ledger' rows,
    displayResults Chain.sleep Chain.getBalance Chain.sampleLedger 150 Chain.start
    = (w', Ok (ledger', rows))
    /\ nth_error ledger' 1 = nth_error Chain.sampleLedger 1.
Proof.
  destruct (displayResults_frame Chain.sleep Chain.getBalance Chain.sampleLedger
              150 Chain.start) as (w' & ledger' & rows & Hrun & _ & _ & Hrecords).
  exists w', ledger', rows. split; [exact Hrun|].
  destruct (Hrecords 1%nat "B"
              {| profit := 10; trades := 4; totalVolume := 8; successfulTrades := 2;
                 averageTradeSize := 2; solBalance := 0; usdProfit := 0 |} eq_refl)
    as (d' & Hnth & _ & _ & _ & _ & _ & Hout).
  rewrite Hnth, Hout; [reflexivity|].
  vm_compute. intros [H|[]]. discriminate H.
Defined.

(** The wallet at a win rate of 3/4 is selected, the one at exactly 1/2 is
    not. *)
Example eligibleTraders_sampleLedger :
  map (fun e => fst (snd e)) (eligibleTraders Chain.sampleLedger) = ["A"].
Proof. reflexivity. Qed.

(** C1 fails on the code.  In a window of more than 200 signatures the
    report after the 200th signature and the one at the end of the window
    each fetch and apply every accumulated signature: the 200 signatures of
    the window cost 400 fetches, and the single trade of the window, which
    gives wallet A one trade on its own, leaves A with two trades and twice
    the profit. *)
Theorem trackWindow_applies_transaction_twice :
  exists w' ledger rows,
    trackWindow Chain.sleep (Chain.getSignaturesForAddress Chain.fourPagesThenOld)
      (Chain.getTransaction Chain.onlyFirstTrades) Chain.getBalance
      Chain.now Chain.ms 150 windowFuel Chain.start
    = (w', Ok (Some (ledger, rows)))
    /\ Chain.transactionFetches w' = 400%nat
    /\ option_map trades (lookup ledger "A") = Some 2
    /\ option_map trades (lookup (processTransaction (Some Chain.aliceBuys) []) "A")
       = Some 1.
Proof.
  eexists _, _, _. split; [vm_compute; reflexivity|].
  repeat split.
Qed.

(** * Further properties of the code *)

(** ** formatTime *)

(** X1.  [formatTime] on whole milliseconds: below one minute it prints the
    whole seconds; from one minute up to one hour the whole minutes (1 to
    59) and the remaining seconds; from one hour on the whole hours and the
    remaining minutes, the seconds being dropped. *)
Theorem formatTime_ranges (ms : Z) :
  (ms < 60000 ->
   formatTime ms = String.append (numberToString (ms / 1000)) "s")
  /\ (60000 <= ms < 3600000 ->
      formatTime ms
      = String.append (numberToString (ms / 60000))
          (String.append "m "
             (String.append (numberToString ((ms / 1000) mod 60)) "s"))
      /\ 1 <= ms / 60000 <= 59)
  /\ (3600000 <= ms ->
      formatTime ms
      = String.append (numberToString (ms / 3600000))
          (String.append "h "
             (String.append (numberToString ((ms / 60000) mod 60)) "m"))
      /\ 1 <= ms / 3600000).
Proof.
  unfold formatTime. cbv zeta.
  assert (Hmin : ms / 1000 / 60 = ms / 60000)
    by (rewrite Z.div_div by lia; reflexivity).
  assert (Hhour : ms / 1000 / 60 / 60 = ms / 3600000)
    by (rewrite !Z.div_div by lia; reflexivity).
  rewrite Hhour, Hmin.
  split; [|split].
  - intros Hlt.
    replace (0 <? ms / 3600000) with false
      by (symmetry; apply Z.ltb_ge; Z.div_mod_to_equations; lia).
    replace (0 <? ms / 60000) with false
      by (symmetry; apply Z.ltb_ge; Z.div_mod_to_equations; lia).
    reflexivity.
  - intros [Hlo Hhi].
    replace (0 <? ms / 3600000) with false
      by (symmetry; apply Z.ltb_ge; Z.div_mod_to_equations; lia).
    replace (0 <? ms / 60000) with true
      by (symmetry; apply Z.ltb_lt; Z.div_mod_to_equations; lia).
    rewrite Z.rem_mod_nonneg by (try apply Z.div_pos; lia).
    split; [reflexivity|]. Z.div_mod_to_equations. lia.
  - intros Hlo.
    replace (0 <? ms / 3600000) with true
      by (symmetry; apply Z.ltb_lt; Z.div_mod_to_equations; lia).
    rewrite Z.rem_mod_nonneg by (try apply Z.div_pos; lia).
    split; [reflexivity|]. Z.div_mod_to_equations. lia.
Qed.

(** One hour, two minutes and five seconds are shown as hours and minutes. *)
Lemma formatTime_ranges_witness : formatTime 3725000 = "1h 2m".
Proof.
  rewrite (proj1 (proj2 (proj2 (formatTime_ranges 3725000)) ltac:(lia))).
  reflexivity.
Defined.

(** ** calculateTradeValue *)

Lemma fold_left_preserves {A B : Type} (P : A -> Prop) (f : A -> B -> A) :
  (forall acc x, P acc -> P (f acc x)) ->
  forall l acc, P acc -> P (fold_left f l acc).
Proof.
  intros Hf l. induction l as [|x l IH]; intros acc Hacc; [exact Hacc|].
  cbn [fold_left]. apply IH, Hf, Hacc.
Qed.

Lemma fold_left_ext_in {A B : Type} (f g : A -> B -> A) (l : list B) :
  (forall acc x, In x l -> f acc x = g acc x) ->
  forall acc, fold_left f l acc = fold_left g l acc.
Proof.
  induction l as [|x l IH]; intros H acc; [reflexivity|].
  cbn [fold_left]. rewrite (H acc x) by (left; reflexivity).
  apply IH. intros acc' y Hy. apply H. right. exact Hy.
Qed.

(** A balance change counts exactly when it exceeds 1000000 lamports. *)
Lemma change_counts (x : Z) :
  Qltb (1 # 1000) (inject_Z x / inject_Z LAMPORTS_PER_SOL) = true <-> 1000000 < x.
Proof.
  rewrite Qltb_lt. unfold LAMPORTS_PER_SOL, Qlt, Qdiv, Qmult, Qinv, inject_Z.
  cbn [Qnum Qden]. lia.
Qed.

(** X2.  The trade value of a transaction is either zero or above the dust
    threshold of 0.001 SOL: a value in between never occurs. *)
Theorem calculateTradeValue_zero_or_above_dust (transaction : option Transaction) :
  (calculateTradeValue transaction == 0)%Q
  \/ (1 # 1000 < calculateTradeValue transaction)%Q.
Proof.
  unfold calculateTradeValue.
  destruct transaction as [tx|]; [|left; reflexivity].
  destruct (meta tx) as [m|]; [|left; reflexivity].
  destruct (preBalances m) as [pre|]; [|left; reflexivity].
  destruct (postBalances m) as [post|]; [|left; reflexivity].
  apply (fold_left_preserves (fun acc => (acc == 0)%Q \/ (1 # 1000 < acc)%Q));
    [|left; reflexivity].
  intros totalChange i Htotal.
  destruct (nth_error pre i) as [preBalance|]; [|exact Htotal].
  destruct (nth_error post i) as [postBalance|]; [|exact Htotal].
  cbv zeta. destruct (Qltb _ _) eqn:E; [|exact Htotal].
  apply Qltb_lt in E. right.
  assert (H0 : (0 <= totalChange)%Q).
  { destruct Htotal as [->|Hlt]; [apply Qle_refl|].
    apply Qlt_le_weak. eapply Qlt_trans; [|exact Hlt]. reflexivity. }
  eapply Qlt_le_trans; [exact E|].
  rewrite <- (Qplus_0_l (_ / _)) at 1. apply Qplus_le_l. exact H0.
Qed.

Lemma calculateTradeValue_dust (tx : Transaction) (m : Meta) (pre post : list Z) :
  meta tx = Some m -> preBalances m = Some pre -> postBalances m = Some post ->
  onlyDust pre post -> calculateTradeValue (Some tx) = 0%Q.
Proof.
  intros Hm Hpre Hpost Hdust. unfold calculateTradeValue.
  rewrite Hm, Hpre, Hpost.
  apply (fold_left_preserves (fun acc => acc = 0%Q)); [|reflexivity].
  intros totalChange i ->.
  destruct (nth_error pre i) as [a|] eqn:Ea; [|reflexivity].
  destruct (nth_error post i) as [b|] eqn:Eb; [|reflexivity].
  cbv zeta. destruct (Qltb _ _) eqn:E; [|reflexivity].
  apply change_counts in E. specialize (Hdust i a b Ea Eb). lia.
Qed.

(** X3.  A fetched transaction is dropped, the ledger staying exactly as it
    was, when one of its token-balance lists or one of its native-balance
    lists is missing, or when no native balance moves by more than 1000000
    lamports (0.001 SOL), even if token balances changed. *)
Theorem processTransaction_rejects (tx : Transaction) (m : Meta) (l : Ledger) :
  meta tx = Some m ->
  (preTokenBalances m = None \/ postTokenBalances m = None ->
   processTransaction (Some tx) l = l)
  /\ (preBalances m = None \/ postBalances m = None ->
      processTransaction (Some tx) l = l)
  /\ (forall pre post,
        preBalances m = Some pre -> postBalances m = Some post ->
        onlyDust pre post -> processTransaction (Some tx) l = l).
Proof.
  intros Hm. unfold processTransaction. rewrite Hm.
  split; [|split].
  - intros Habsent.
    replace (isTradeTransaction (Some tx)) with false; [reflexivity|].
    unfold isTradeTransaction. rewrite Hm.
    destruct Habsent as [-> | ->]; [reflexivity|].
    destruct (preTokenBalances m); reflexivity.
  - intros Habsent. destruct (negb _); [reflexivity|].
    replace (calculateTradeValue (Some tx)) with 0%Q; [reflexivity|].
    unfold calculateTradeValue. rewrite Hm.
    destruct Habsent as [-> | ->]; [reflexivity|].
    destruct (preBalances m); reflexivity.
  - intros pre post Hpre Hpost Hdust. destruct (negb _); [reflexivity|].
    rewrite (calculateTradeValue_dust tx m pre post Hm Hpre Hpost Hdust).
    reflexivity.
Qed.

(** A token purchase whose native balances show only the fee of 5000
    lamports is classified as a trade and yet leaves the ledger empty. *)
Lemma processTransaction_rejects_witness :
  isTradeTransaction (Some feeOnly) = true
  /\ processTransaction (Some feeOnly) [] = [].
Proof.
  split; [reflexivity|].
  refine (proj2 (proj2 (processTransaction_rejects feeOnly _ [] eq_refl))
            [3000000000; 7] [2999995000; 7] eq_refl eq_refl _).
  intros i a b Ha Hb.
  destruct i as [|[|[|i]]]; cbn in Ha, Hb; try discriminate Ha;
    injection Ha as <-; injection Hb as <-; cbn; lia.
Defined.

(** ** What a transaction adds to the ledger *)

Lemma totalTrades_app (l l' : Ledger) :
  totalTrades (l ++ l') = totalTrades l + totalTrades l'.
Proof.
  induction l as [|e l IH]; cbn [app totalTrades fold_right]; [reflexivity|].
  fold (totalTrades (l ++ l')). fold (totalTrades l). lia.
Qed.

Lemma totalVolumeOf_app (l l' : Ledger) :
  (totalVolumeOf (l ++ l') == totalVolumeOf l + totalVolumeOf l')%Q.
Proof.
  induction l as [|e l IH]; cbn [app totalVolumeOf fold_right].
  - rewrite Qplus_0_l. reflexivity.
  - fold (totalVolumeOf (l ++ l')). fold (totalVolumeOf l). rewrite IH. ring.
Qed.

Lemma totals_update (l : Ledger) (k : string) (tradeValue : Q) (change : Z) :
  lookup l k <> None ->
  totalTrades (update l k (applyChange tradeValue change)) = totalTrades l + 1
  /\ (totalVolumeOf (update l k (applyChange tradeValue change))
      == totalVolumeOf l + tradeValue)%Q.
Proof.
  induction l as [|[k' d] l IH]; cbn [lookup update]; [congruence|].
  destruct (String.eqb k' k); intros Hfound;
    cbn [totalTrades totalVolumeOf fold_right snd].
  - cbn [applyChange trades totalVolume].
    fold (totalTrades l). fold (totalVolumeOf l). split; [lia|ring].
  - fold (totalTrades (update l k (applyChange tradeValue change))).
    fold (totalVolumeOf (update l k (applyChange tradeValue change))).
    fold (totalTrades l). fold (totalVolumeOf l).
    destruct (IH Hfound) as [-> ->]. split; [lia|ring].
Qed.

Lemma totals_withTrader (l : Ledger) (o : string) :
  totalTrades (withTrader l o) = totalTrades l
  /\ (totalVolumeOf (withTrader l o) == totalVolumeOf l)%Q.
Proof.
  unfold withTrader. destruct (lookup l o); [split; reflexivity|].
  rewrite totalTrades_app, totalVolumeOf_app.
  cbn [totalTrades totalVolumeOf fold_right snd newTrader trades totalVolume].
  split; [lia|ring].
Qed.

Lemma totals_applyPair (tradeValue : Q) (pres posts : list (option TokenBalance))
  (i : nat) (l : Ledger) :
  let l' := applyPair tradeValue (at_index pres i) (at_index posts i) l in
  let n := if pairChanged (at_index pres i) (at_index posts i) then 1 else 0 in
  totalTrades l' = totalTrades l + n
  /\ (totalVolumeOf l' == totalVolumeOf l + inject_Z n * tradeValue)%Q.
Proof.
  cbv zeta.
  destruct (pairChanged (at_index pres i) (at_index posts i)) eqn:Hchanged.
  - apply pairChanged_iff in Hchanged as (o & a & b & Hpair & Hne).
    rewrite (applyPair_qualifying _ _ _ _ _ _ _ _ Hpair).
    replace (b - a =? 0) with false by (symmetry; apply Z.eqb_neq; lia).
    destruct (totals_update (withTrader l o) o tradeValue (b - a)) as [Ht Hv].
    { rewrite lookup_withTrader. discriminate. }
    destruct (totals_withTrader l o) as [Ht' Hv'].
    rewrite Ht, Hv, Ht', Hv'. split; [reflexivity|ring].
  - rewrite applyPair_not_qualifying by exact Hchanged.
    split; [lia|ring].
Qed.

Lemma totals_applyTokenBalances (tradeValue : Q)
  (pres posts : list (option TokenBalance)) (indices : list nat) :
  forall l,
    let l' := fold_left
                (fun ledger i =>
                   applyPair tradeValue (at_index pres i) (at_index posts i) ledger)
                indices l in
    let n := Z.of_nat
               (List.length
                  (filter (fun i => pairChanged (at_index pres i) (at_index posts i))
                     indices)) in
    totalTrades l' = totalTrades l + n
    /\ (totalVolumeOf l' == totalVolumeOf l + inject_Z n * tradeValue)%Q.
Proof.
  cbv zeta. induction indices as [|i indices IH]; intros l; cbn [fold_left filter].
  - cbn [List.length]. split; [cbn; lia|]. cbn. ring.
  - destruct (IH (applyPair tradeValue (at_index pres i) (at_index posts i) l))
      as [Ht Hv].
    destruct (totals_applyPair tradeValue pres posts i l) as [Ht1 Hv1].
    cbv zeta in Ht1, Hv1. rewrite Ht, Hv, Ht1, Hv1.
    destruct (pairChanged (at_index pres i) (at_index posts i)).
    + cbn [List.length]. rewrite Nat2Z.inj_succ. unfold Z.succ.
      split; [lia|]. rewrite inject_Z_plus. ring.
    + split; [lia|]. ring.
Qed.

Lemma not_trade_no_changedPairs (tx : Transaction) (m : Meta) :
  meta tx = Some m -> isTradeTransaction (Some tx) = false ->
  changedPairs (orEmpty (preTokenBalances m)) (orEmpty (postTokenBalances m)) = [].
Proof.
  intros Hm. unfold isTradeTransaction, changedPairs. rewrite Hm.
  destruct (preTokenBalances m) as [pres|]; [|reflexivity].
  destruct (postTokenBalances m) as [posts|]; cbn [orEmpty].
  - generalize (seq 0 (List.length pres)) as indices.
    induction indices as [|i indices IH]; cbn [existsb filter]; [reflexivity|].
    destruct (pairChanged _ _); [discriminate|]. exact IH.
  - intros _. generalize (seq 0 (List.length pres)) as indices.
    induction indices as [|i indices IH]; cbn [filter]; [reflexivity|].
    replace (at_index [] i) with (@None TokenBalance)
      by (unfold at_index; destruct i; reflexivity).
    replace (pairChanged (at_index pres i) None) with false
      by (unfold pairChanged; destruct (at_index pres i); reflexivity).
    exact IH.
Qed.

(** X4.  A transaction with a non-zero trade value and [n] changed
    token-balance pairs adds exactly [n] trades to the ledger in total: one
    for every changed pair, whether the wallet is new or known and whether
    several pairs belong to one wallet. *)
Theorem processTransaction_totals (tx : Transaction) (m : Meta) (l : Ledger) :
  meta tx = Some m ->
  ~ (calculateTradeValue (Some tx) == 0)%Q ->
  totalTrades (processTransaction (Some tx) l)
  = totalTrades l
    + Z.of_nat
        (List.length
           (changedPairs (orEmpty (preTokenBalances m))
              (orEmpty (postTokenBalances m)))).
Proof.
  intros Hm Hvalue. unfold processTransaction. rewrite Hm.
  destruct (isTradeTransaction (Some tx)) eqn:Htrade; cbn [negb].
  - destruct (Qeq_bool (calculateTradeValue (Some tx)) 0) eqn:E.
    + apply Qeq_bool_eq in E. contradiction.
    + apply (totals_applyTokenBalances (calculateTradeValue (Some tx))
               (orEmpty (preTokenBalances m)) (orEmpty (postTokenBalances m))).
  - rewrite (not_trade_no_changedPairs tx m Hm Htrade). cbn [List.length Z.of_nat].
    lia.
Qed.

(** The transaction of C5 adds two trades. *)
Lemma processTransaction_totals_witness :
  totalTrades (processTransaction (Some twoParticipants) []) = 2.
Proof.
  rewrite (processTransaction_totals twoParticipants _ [] eq_refl).
  - reflexivity.
  - vm_compute. discriminate.
Defined.

(** ** Records are kept, and kept unique *)

Lemma recordGrows_refl (d : TraderData) : recordGrows d d.
Proof. unfold recordGrows. repeat split; try lia; apply Qle_refl. Qed.

Lemma recordGrows_trans (d1 d2 d3 : TraderData) :
  recordGrows d1 d2 -> recordGrows d2 d3 -> recordGrows d1 d3.
Proof.
  unfold recordGrows. intros (A1 & A2 & A3 & A4 & A5) (B1 & B2 & B3 & B4 & B5).
  repeat split; try lia; try congruence. eapply Qle_trans; eassumption.
Qed.

Lemma recordGrows_applyChange (tradeValue : Q) (change : Z) (d : TraderData) :
  (0 <= tradeValue)%Q -> recordGrows d (applyChange tradeValue change d).
Proof.
  intros Hvalue. unfold recordGrows, applyChange.
  cbn [trades successfulTrades totalVolume solBalance usdProfit].
  repeat split; try lia.
  - destruct (0 <? change); lia.
  - rewrite <- (Qplus_0_r (totalVolume d)) at 1. apply Qplus_le_r. exact Hvalue.
Qed.

Lemma kept_refl (l : Ledger) :
  Forall2 (fun e e' => fst e' = fst e /\ recordGrows (snd e) (snd e')) l l.
Proof.
  induction l as [|e l IH]; constructor; [|exact IH].
  split; [reflexivity|apply recordGrows_refl].
Qed.

Lemma ledgerGrows_refl (l : Ledger) : ledgerGrows l l.
Proof.
  exists l, []. split; [symmetry; apply app_nil_r|apply kept_refl].
Qed.

Lemma ledgerGrows_trans (l1 l2 l3 : Ledger) :
  ledgerGrows l1 l2 -> ledgerGrows l2 l3 -> ledgerGrows l1 l3.
Proof.
  intros (k1 & a1 & -> & H1) (k2 & a2 & -> & H2).
  apply Forall2_app_inv_l in H2 as (k2a & k2b & Ha & Hb & ->).
  exists k2a, (k2b ++ a2). split; [symmetry; apply app_assoc|].
  clear Hb. revert k2a Ha. induction H1 as [|e e1 l k1 [Hk Hd] _ IH]; intros k2a Ha.
  - inversion Ha. constructor.
  - inversion Ha as [|? e2 ? k2' [Hk' Hd'] Hrest]; subst.
    constructor; [|apply IH, Hrest].
    split; [congruence|eapply recordGrows_trans; eassumption].
Qed.

Lemma ledgerGrows_app (l added : Ledger) : ledgerGrows l (l ++ added).
Proof. exists l, added. split; [reflexivity|apply kept_refl]. Qed.

Lemma ledgerGrows_update (l : Ledger) (k : string) (f : TraderData -> TraderData) :
  (forall d, recordGrows d (f d)) -> ledgerGrows l (update l k f).
Proof.
  intros Hf. exists (update l k f), []. split; [symmetry; apply app_nil_r|].
  induction l as [|[k' d] l IH]; cbn [update]; [constructor|].
  destruct (String.eqb k' k).
  - constructor; [split; [reflexivity|apply Hf]|apply kept_refl].
  - constructor; [split; [reflexivity|apply recordGrows_refl]|exact IH].
Qed.

Lemma ledgerGrows_applyPair (tradeValue : Q) (pre post : option TokenBalance)
  (l : Ledger) :
  (0 <= tradeValue)%Q -> ledgerGrows l (applyPair tradeValue pre post l).
Proof.
  intros Hvalue. unfold applyPair.
  destruct pre as [pre|]; [|apply ledgerGrows_refl].
  destruct post as [post|]; [|apply ledgerGrows_refl].
  destruct (truthyString (owner pre)) as [o|]; [|apply ledgerGrows_refl].
  destruct (uiTokenAmount pre) as [preUi|]; [|apply ledgerGrows_refl].
  destruct (uiTokenAmount post) as [postUi|]; [|apply ledgerGrows_refl].
  cbv zeta. destruct (_ =? 0); [apply ledgerGrows_refl|].
  eapply ledgerGrows_trans;
    [|apply ledgerGrows_update; intros d; apply recordGrows_applyChange, Hvalue].
  destruct (lookup l o); [apply ledgerGrows_refl|apply ledgerGrows_app].
Qed.

(** X5.  Applying a fetched transaction never removes, moves or renames a
    record: the ledger afterwards holds the old records at their positions,
    under their addresses, with trades, successfulTrades and totalVolume not
    decreased and solBalance and usdProfit untouched, followed by the records
    of the wallets seen for the first time. *)
Theorem processTransaction_grows (transaction : option Transaction) (l : Ledger) :
  ledgerGrows l (processTransaction transaction l).
Proof.
  unfold processTransaction.
  destruct transaction as [tx|]; [|apply ledgerGrows_refl].
  destruct (meta tx) as [m|]; [|apply ledgerGrows_refl].
  destruct (negb _); [apply ledgerGrows_refl|].
  cbv zeta. destruct (Qeq_bool _ _); [apply ledgerGrows_refl|].
  unfold applyTokenBalances.
  generalize (seq 0 (List.length (orEmpty (preTokenBalances m)))) as indices.
  intros indices.
  assert (H : forall l', ledgerGrows l l' ->
            ledgerGrows l
              (fold_left
                 (fun ledger i =>
                    applyPair (calculateTradeValue (Some tx))
                      (at_index (orEmpty (preTokenBalances m)) i)
                      (at_index (orEmpty (postTokenBalances m)) i) ledger)
                 indices l')).
  { induction indices as [|i indices IH]; intros l' Hl'; [exact Hl'|].
    cbn [fold_left]. apply IH.
    eapply ledgerGrows_trans; [exact Hl'|].
    apply ledgerGrows_applyPair, calculateTradeValue_nonneg. }
  apply H, ledgerGrows_refl.
Qed.

Lemma keys_update (l : Ledger) (k : string) (f : TraderData -> TraderData) :
  map fst (update l k f) = map fst l.
Proof.
  induction l as [|[k' d] l IH]; cbn [update map]; [reflexivity|].
  destruct (String.eqb k' k); cbn [map fst]; [reflexivity|].
  rewrite IH. reflexivity.
Qed.

Lemma keys_updateAt (l : Ledger) (i : nat) (f : TraderData -> TraderData) :
  map fst (updateAt i f l) = map fst l.
Proof.
  revert i. induction l as [|[k d] l IH]; intros i; cbn [updateAt map]; [reflexivity|].
  destruct i as [|i]; cbn [map fst]; [reflexivity|].
  rewrite IH. reflexivity.
Qed.

Lemma lookup_None_iff (l : Ledger) (k : string) :
  lookup l k = None <-> ~ In k (map fst l).
Proof.
  induction l as [|[k' d] l IH]; cbn [lookup map fst In]; [tauto|].
  destruct (String.eqb k' k) eqn:E.
  - apply String.eqb_eq in E. split; [discriminate|]. intros H. exfalso. apply H.
    left. exact E.
  - apply String.eqb_neq in E. rewrite IH. tauto.
Qed.

Lemma goodKeys_applyPair (tradeValue : Q) (pre post : option TokenBalance)
  (l : Ledger) :
  goodKeys l -> goodKeys (applyPair tradeValue pre post l).
Proof.
  intros Hl. unfold applyPair.
  destruct pre as [pre|]; [|exact Hl].
  destruct post as [post|]; [|exact Hl].
  destruct (truthyString (owner pre)) as [o|] eqn:Ho; [|exact Hl].
  destruct (uiTokenAmount pre) as [preUi|]; [|exact Hl].
  destruct (uiTokenAmount post) as [postUi|]; [|exact Hl].
  cbv zeta. destruct (_ =? 0); [exact Hl|].
  unfold goodKeys. rewrite keys_update.
  destruct (lookup l o) eqn:E; [exact Hl|].
  destruct Hl as [Hnodup Hnonempty].
  rewrite map_app. cbn [map fst]. split.
  - apply NoDup_app; [exact Hnodup|constructor; [intros []|constructor]|].
    intros k Hin [<-|[]]. apply lookup_None_iff in E. contradiction.
  - apply Forall_app. split; [exact Hnonempty|].
    constructor; [|constructor]. apply truthyString_some in Ho. apply Ho.
Qed.

Lemma goodKeys_processTransaction (transaction : option Transaction) (l : Ledger) :
  goodKeys l -> goodKeys (processTransaction transaction l).
Proof.
  intros Hl. unfold processTransaction.
  destruct transaction as [tx|]; [|exact Hl].
  destruct (meta tx) as [m|]; [|exact Hl].
  destruct (negb _); [exact Hl|].
  cbv zeta. destruct (Qeq_bool _ _); [exact Hl|].
  unfold applyTokenBalances.
  apply (fold_left_preserves goodKeys); [|exact Hl].
  intros acc i. apply goodKeys_applyPair.
Qed.

Lemma lookup_In (l : Ledger) (k : string) (d : TraderData) :
  NoDup (map fst l) -> (In (k, d) l <-> lookup l k = Some d).
Proof.
  induction l as [|[k' d'] l IH]; cbn [map fst lookup In]; intros Hnodup.
  - split; [contradiction|discriminate].
  - inversion Hnodup as [|? ? Hnotin Hrest]; subst.
    destruct (String.eqb k' k) eqn:E.
    + apply String.eqb_eq in E. subst k'. split.
      * intros [Heq|Hin]; [congruence|].
        exfalso. apply Hnotin. apply in_map_iff. exists (k, d). split; [reflexivity|exact Hin].
      * intros [= ->]. left. reflexivity.
    + apply String.eqb_neq in E. rewrite <- (IH Hrest). split.
      * intros [Heq|Hin]; [congruence|exact Hin].
      * intros Hin. right. exact Hin.
Qed.

(** X6.  In every ledger a run can hold, each wallet address occurs once
    and is not the empty string, so that the record found under an address
    is the only record of that wallet. *)
Theorem reachable_keys_unique (l : Ledger) :
  Reachable l ->
  NoDup (map fst l)
  /\ Forall (fun address => address <> "") (map fst l)
  /\ forall address d, In (address, d) l <-> lookup l address = Some d.
Proof.
  intros Hreach.
  assert (Hkeys : goodKeys l).
  { induction Hreach as [|transaction l _ IH|i balance solPrice l _ IH].
    - split; constructor.
    - apply goodKeys_processTransaction, IH.
    - unfold goodKeys. rewrite keys_updateAt. exact IH. }
  destruct Hkeys as [Hnodup Hnonempty].
  split; [exact Hnodup|]. split; [exact Hnonempty|].
  intros address d. apply lookup_In, Hnodup.
Qed.

(** The ledger of C5 after the same transaction was applied a second time
    still holds one record for A and one for B. *)
Lemma reachable_keys_unique_witness :
  map fst (processTransaction (Some twoParticipants)
             (processTransaction (Some twoParticipants) [])) = ["A"; "B"]
  /\ NoDup (map fst (processTransaction (Some twoParticipants)
                       (processTransaction (Some twoParticipants) []))).
Proof.
  split; [reflexivity|].
  apply (reachable_keys_unique _
           (reach_transaction _ _ (reach_transaction _ _ reach_empty))).
Defined.

(** ** The selection of a report *)

Lemma insertByProfit_length (a : Entry) (l : list Entry) :
  List.length (insertByProfit a l) = S (List.length l).
Proof.
  induction l as [|b l IH]; cbn [insertByProfit]; [reflexivity|].
  destruct (Qle_bool _ _); cbn [List.length]; [reflexivity|].
  rewrite IH. reflexivity.
Qed.

Lemma sortByProfit_length (l : list Entry) :
  List.length (sortByProfit l) = List.length l.
Proof.
  induction l as [|a l IH]; cbn [sortByProfit fold_right]; [reflexivity|].
  rewrite insertByProfit_length. fold (sortByProfit l). rewrite IH. reflexivity.
Qed.

Lemma StronglySorted_app_order {A} (R : A -> A -> Prop) (l1 l2 : list A) :
  StronglySorted R (l1 ++ l2) ->
  forall a b, In a l1 -> In b l2 -> R a b.
Proof.
  induction l1 as [|x l1 IH]; intros Hs a b Ha Hb; [contradiction|].
  cbn [app] in Hs. inversion Hs as [|? ? Hrest Hx]; subst.
  destruct Ha as [<-|Ha].
  - rewrite Forall_forall in Hx. apply Hx, in_or_app. right. exact Hb.
  - apply IH; assumption.
Qed.

Lemma nth_error_entries (l : Ledger) (i : nat) (x : string * TraderData) :
  nth_error l i = Some x -> In (i, x) (entries l).
Proof.
  unfold entries.
  assert (H : forall s, nth_error l i = Some x ->
                        In ((s + i)%nat, x) (combine (seq s (List.length l)) l)).
  { revert i. induction l as [|y l IH]; intros i s Hnth.
    - destruct i; discriminate.
    - cbn [List.length seq combine]. destruct i as [|i]; cbn [nth_error] in Hnth.
      + injection Hnth as ->. left. rewrite Nat.add_0_r. reflexivity.
      + right. replace (s + S i)%nat with (S s + i)%nat by lia. apply IH, Hnth. }
  intros Hnth. apply (H 0%nat Hnth).
Qed.

(** X7.  The report selects the most profitable eligible records: an
    eligible record of the ledger is either selected or has a profit not
    above that of any selected record; and as many are selected as there are
    eligible records, up to 10. *)
Theorem eligibleTraders_most_profitable (ledger : Ledger) :
  (forall i address d,
     nth_error ledger i = Some (address, d) -> isEligible d = true ->
     In (i, (address, d)) (eligibleTraders ledger)
     \/ forall e, In e (eligibleTraders ledger) ->
          (profit d <= profit (entryData e))%Q)
  /\ List.length (eligibleTraders ledger)
     = Nat.min 10
         (List.length (filter (fun e => isEligible (snd e)) ledger)).
Proof.
  unfold eligibleTraders.
  set (candidates := filter (fun e => isEligible (entryData e)) (entries ledger)).
  split.
  - intros i address d Hnth Hel.
    assert (Hin : In (i, (address, d)) (sortByProfit candidates)).
    { apply sortByProfit_In. apply filter_In. split; [|exact Hel].
      apply nth_error_entries, Hnth. }
    rewrite <- (firstn_skipn 10 (sortByProfit candidates)) in Hin.
    apply in_app_or in Hin as [Hin|Hin]; [left; exact Hin|right].
    intros e He.
    pose proof (sortByProfit_sorted candidates) as Hsorted.
    rewrite <- (firstn_skipn 10 (sortByProfit candidates)) in Hsorted.
    exact (StronglySorted_app_order _ _ _ Hsorted e (i, (address, d)) He Hin).
  - rewrite length_firstn, sortByProfit_length. f_equal.
    unfold candidates, entries.
    generalize 0%nat as s. induction ledger as [|x l IH]; intros s; [reflexivity|].
    cbn [List.length seq combine filter]. unfold entryData at 1. cbn [snd].
    destruct (isEligible (snd x)); cbn [List.length]; rewrite IH; reflexivity.
Qed.

(** In [Chain.sampleLedger] the wallet A is eligible and selected. *)
Lemma eligibleTraders_most_profitable_witness :
  In (0%nat, ("A", {| profit := 10; trades := 4; totalVolume := 8;
                      successfulTrades := 3; averageTradeSize := 2;
                      solBalance := 0; usdProfit := 0 |}))
     (eligibleTraders Chain.sampleLedger)
  \/ forall e, In e (eligibleTraders Chain.sampleLedger) ->
       (10 <= profit (entryData e))%Q.
Proof.
  apply (proj1 (eligibleTraders_most_profitable Chain.sampleLedger) 0%nat "A" _
           eq_refl eq_refl).
Defined.

Section EnrichFacts.
Context {World : Type}.
Variable sleep : Z -> World -> World.
Variable getBalance : string -> M World Z.
Variable solPrice : Q.
Variable okBalance : Q -> Prop.
Hypothesis okBalance_returned :
  forall address w w' balance,
    getWalletSolBalance getBalance address w = (w', Ok balance) -> okBalance balance.

Lemma updateBalances_enriches (eligible : list Entry) :
  forall (l : Ledger) (w : World) (done : nat -> Prop),
    (forall i, done i -> enrichedAt solPrice okBalance l i) ->
    exists w' l',
      updateBalances sleep getBalance solPrice eligible l w = (w', Ok l')
      /\ forall i, done i \/ In i (map fst eligible) ->
           enrichedAt solPrice okBalance l' i.
Proof.
  induction eligible as [|[i0 [address d0]] rest IH]; intros l w done Hdone.
  - exists w, l. split; [reflexivity|].
    intros i [Hi|[]]. apply Hdone, Hi.
  - cbn [updateBalances]. unfold bind at 1. unfold doSleep at 1. unfold bind at 1.
    destruct (getWalletSolBalance_returns getBalance address (sleep BASE_DELAY w))
      as (w1 & balance & Hbal).
    rewrite Hbal. apply okBalance_returned in Hbal.
    destruct (IH (updateAt i0 (setBalances balance solPrice) l) w1
                (fun i => done i \/ i = i0))
      as (w' & l' & Hrun & Henriched).
    + intros i Hi. unfold enrichedAt. rewrite nth_error_updateAt.
      destruct (nth_error l i) as [[k d]|] eqn:E; [|exact I].
      destruct (Nat.eqb i0 i) eqn:Eq.
      * cbn [setBalances usdProfit profit solBalance]. split; [reflexivity|exact Hbal].
      * destruct Hi as [Hi| ->]; [|rewrite Nat.eqb_refl in Eq; discriminate].
        specialize (Hdone i Hi). unfold enrichedAt in Hdone. rewrite E in Hdone.
        exact Hdone.
    + exists w', l'. split; [exact Hrun|].
      intros i Hi. apply Henriched. cbn [map fst In] in Hi.
      destruct Hi as [Hi|[Hi|Hi]];
        [left; left; exact Hi|left; right; symmetry; exact Hi|right; exact Hi].
Qed.

Lemma displayResults_enriches (ledger : Ledger) (w : World) :
  exists w' ledger' rows,
    displayResults sleep getBalance ledger solPrice w = (w', Ok (ledger', rows))
    /\ Forall
         (fun row =>
            usdProfit (snd row) = (profit (snd row) * solPrice)%Q
            /\ okBalance (solBalance (snd row)))
         rows.
Proof.
  destruct (displayResults_returns sleep getBalance ledger solPrice w)
    as (w' & ledger' & Hrun & Hframe).
  exists w', ledger', (map (readEntry ledger') (eligibleTraders ledger)).
  split; [exact Hrun|].
  unfold displayResults, bind in Hrun.
  destruct (updateBalances_enriches (eligibleTraders ledger) ledger w
              (fun _ => False)) as (w2 & l2 & Hupd & Henriched); [contradiction|].
  rewrite Hupd in Hrun. unfold ret in Hrun. injection Hrun as _ <-.
  rewrite Forall_forall. intros row Hin.
  apply in_map_iff in Hin as (e & <- & He).
  specialize (Henriched (fst e)
                (or_intror (in_map fst (eligibleTraders ledger) e He))).
  apply eligibleTraders_spec in He as [Hnth _].
  specialize (Hframe (fst e)). rewrite Hnth in Hframe.
  unfold enrichedAt in Henriched.
  destruct e as [i [k d]]. cbn [fst snd] in *.
  destruct (nth_error l2 i) as [[k' d']|] eqn:E; [|contradiction].
  unfold readEntry, entryData. cbn [fst snd].
  rewrite (nth_error_nth (map snd l2) i d (x := d')); [exact Henriched|].
  rewrite nth_error_map, E. reflexivity.
Qed.
End EnrichFacts.

(** X8.  A report never throws, and every row it prints carries
    usdProfit = profit * solPrice. The balance of a row is a looked-up
    balance divided by 1000000000 or 0; it is 0 in every row when every
    balance lookup fails. *)
Theorem displayResults_rows_enriched {World : Type} (sleep : Z -> World -> World)
  (getBalance : string -> M World Z) (ledger : Ledger) (solPrice : Q) (w : World) :
  exists w' ledger' rows,
    displayResults sleep getBalance ledger solPrice w = (w', Ok (ledger', rows))
    /\ Forall
         (fun row =>
            usdProfit (snd row) = (profit (snd row) * solPrice)%Q
            /\ (solBalance (snd row) = 0%Q
                \/ exists address w0 w1 balance,
                     getBalance address w0 = (w1, Ok balance)
                     /\ solBalance (snd row)
                        = (inject_Z balance / inject_Z LAMPORTS_PER_SOL)%Q))
         rows
    /\ ((forall address w0, exists w1 e, getBalance address w0 = (w1, Throw e)) ->
        Forall (fun row => solBalance (snd row) = 0%Q) rows).
Proof.
  destruct (displayResults_enriches sleep getBalance solPrice
              (fun q => q = 0%Q
                        \/ exists address w0 w1 balance,
                             getBalance address w0 = (w1, Ok balance)
                             /\ q = (inject_Z balance / inject_Z LAMPORTS_PER_SOL)%Q))
    with (ledger := ledger) (w := w) as (w' & ledger' & rows & Hrun & Hrows).
  { intros address w0 w1 q. unfold getWalletSolBalance, tryCatch, bind, ret.
    destruct (getBalance address w0) as [w2 [b|e]] eqn:E; intros [= <- <-].
    - right. exists address, w0, w2, b. split; [exact E|reflexivity].
    - left. reflexivity. }
  exists w', ledger', rows. split; [exact Hrun|]. split; [exact Hrows|].
  intros Hdown.
  destruct (displayResults_enriches sleep getBalance solPrice (fun q => q = 0%Q))
    with (ledger := ledger) (w := w) as (w2 & ledger2 & rows2 & Hrun2 & Hrows2).
  { intros address w0 w1 q. unfold getWalletSolBalance, tryCatch, bind, ret.
    destruct (Hdown address w0) as (w3 & e & ->). intros [= <- <-]. reflexivity. }
  rewrite Hrun in Hrun2. injection Hrun2 as _ _ <-.
  eapply Forall_impl; [|exact Hrows2]. intros row [_ H]. exact H.
Qed.

(** With the balance provider down, the report on [Chain.sampleLedger] still
    prints wallet A, with balance 0 and a USD profit of 1500 at 150 USD. *)
Lemma displayResults_rows_enriched_witness :
  exists w' ledger' rows,
    displayResults Chain.sleep balanceDown Chain.sampleLedger 150 Chain.start
    = (w', Ok (ledger', rows))
    /\ map fst rows = ["A"]
    /\ Forall (fun row => solBalance (snd row) = 0%Q) rows.
Proof.
  destruct (displayResults_rows_enriched Chain.sleep balanceDown
              Chain.sampleLedger 150 Chain.start)
    as (w' & ledger' & rows & Hrun & _ & Hdown).
  exists w', ledger', rows. split; [exact Hrun|]. split.
  - vm_compute in Hrun. injection Hrun as _ _ <-. reflexivity.
  - apply Hdown. intros address w0. eexists _, _. reflexivity.
Defined.

(** ** What counts as rate limited *)

Lemma prefix_iff (sub s : string) :
  String.prefix sub s = true <-> exists b, s = String.append sub b.
Proof.
  revert s. induction sub as [|c sub IH]; intros s.
  - split; [intros _; exists s; reflexivity|].
    intros _. destruct s; reflexivity.
  - destruct s as [|c' s]; cbn [String.prefix String.append].
    + split; [discriminate|]. intros (b & Hb). discriminate Hb.
    + destruct (Ascii.ascii_dec c c') as [->|Hne].
      * rewrite IH. split; intros (b & Hb); exists b; congruence.
      * split; [discriminate|]. intros (b & Hb). congruence.
Qed.

Lemma includes_iff (s sub : string) :
  includes s sub = true <->
  exists a b, s = String.append a (String.append sub b).
Proof.
  induction s as [|c s IH]; cbn [includes].
  - rewrite orb_false_r, prefix_iff. split.
    + intros (b & Hb). exists "", b. exact Hb.
    + intros ([|c a] & b & H); [exists b; exact H|discriminate H].
  - rewrite orb_true_iff, prefix_iff, IH. split.
    + intros [(b & Hb)|(a & b & Hab)].
      * exists "", b. exact Hb.
      * exists (String c a), b. cbn [String.append]. rewrite Hab. reflexivity.
    + intros ([|c' a] & b & H).
      * left. exists b. exact H.
      * right. cbn [String.append] in H. injection H as _ H. exists a, b. exact H.
Qed.

(** X9.  An error is retried as rate limited exactly when it has a message
    in which the three characters 429 occur somewhere, whatever surrounds
    them. *)
Theorem isRateLimited_iff (e : Error) :
  isRateLimited e = true <->
  exists m a b,
    message e = Some m /\ m = String.append a (String.append "429" b).
Proof.
  unfold isRateLimited. destruct (message e) as [m|].
  - rewrite includes_iff. split.
    + intros (a & b & H). exists m, a, b. split; [reflexivity|exact H].
    + intros (m' & a & b & [= <-] & H). exists a, b. exact H.
  - split; [discriminate|]. intros (m & a & b & H & _). discriminate H.
Qed.

(** An error about block 14290 is taken for a rate limit. *)
Lemma isRateLimited_iff_witness : isRateLimited blockNotAvailable = true.
Proof.
  apply (proj2 (isRateLimited_iff blockNotAvailable)).
  exists "Block 14290 not available", "Block 1", "0 not available".
  split; reflexivity.
Defined.

(** ** The cost of retrying *)

Lemma Script_worldBefore {T : Type} (script : nat -> Outcome T) (k : nat) :
  forall (retryCount : nat) (w : Script.RetryWorld),
    worldBefore Script.sleep (Script.scripted script) retryCount w k
    = {| Script.attemptsMade := Script.attemptsMade w + k;
         Script.sleeps := Script.sleeps w ++ map backoff (seq retryCount k) |}.
Proof.
  induction k as [|k IH]; intros retryCount w; cbn [worldBefore].
  - destruct w as [n s]. cbn. rewrite Nat.add_0_r, app_nil_r. reflexivity.
  - rewrite IH. cbn [Script.scripted fst Script.sleep Script.attemptsMade
                     Script.sleeps seq map].
    rewrite <- app_assoc. cbn [app]. unfold backoff at 2.
    f_equal. lia.
Qed.

(** X10.  Whatever the operation does, the wrapper calls it at most 6
    times; before the call number [i + 2] it sleeps [1000 * 2 ^ i] ms and it
    sleeps at no other time, 31 seconds at most in total.  Entered with a
    retry counter that has reached [MAX_RETRIES], it makes one call and
    returns or throws what that call did. *)
Theorem withRetry_worst_case :
  (forall (T : Type) (script : nat -> Outcome T),
     exists k,
       (k <= MAX_RETRIES)%nat
       /\ withRetry Script.sleep (Script.scripted script) 0 Script.start
          = ({| Script.attemptsMade := S k;
                Script.sleeps := map backoff (seq 0 k) |}, script k)
       /\ fold_right Z.add 0 (map backoff (seq 0 k)) <= 31000)
  /\ (forall (World T : Type) (sleep : Z -> World -> World)
        (operation : M World T) (retryCount : nat) (w : World),
        (MAX_RETRIES <= retryCount)%nat ->
        withRetry sleep operation retryCount w = operation w).
Proof.
  split.
  - intros T script.
    destruct (withRetry_attempts Script.sleep (Script.scripted script)
                MAX_RETRIES 0 Script.start) as (k & Hk & Hres & _); [lia|].
    exists k. split; [lia|]. split.
    + rewrite Hres, Script_worldBefore. cbn. reflexivity.
    + unfold MAX_RETRIES in Hk. cbn [Nat.max Nat.add] in Hk.
      do 6 (destruct k as [|k]; [vm_compute; discriminate|]). lia.
  - intros World T sleep operation retryCount w Hcap.
    rewrite withRetry_step.
    destruct (operation w) as [w1 [v|e]]; [reflexivity|].
    replace (retryCount <? MAX_RETRIES)%nat with false
      by (symmetry; apply Nat.ltb_ge; exact Hcap).
    rewrite andb_false_r. reflexivity.
Qed.

(** An operation that is always rate limited is called 6 times, with sleeps
    of 1, 2, 4, 8 and 16 seconds, and its last error is thrown. *)
Lemma withRetry_worst_case_witness :
  withRetry Script.sleep (Script.scripted alwaysRateLimited) 0 Script.start
  = ({| Script.attemptsMade := 6;
        Script.sleeps := [1000; 2000; 4000; 8000; 16000] |},
     Throw Script.tooManyRequests)
  /\ withRetry Script.sleep (Script.scripted alwaysRateLimited) 5 Script.start
     = Script.scripted alwaysRateLimited Script.start.
Proof.
  split; [reflexivity|].
  apply (proj2 withRetry_worst_case). unfold MAX_RETRIES. lia.
Defined.

(** ** Windows that end at the end of the history *)

Section EndOfHistory.
Context {World : Type}.
Variable sleep : Z -> World -> World.
Variable getSignaturesForAddress : SigOptions -> M World (list SigInfo).
Variable getTransaction : string -> M World (option Transaction).
Variable getBalance : string -> M World Z.
Variables (now ms : Z) (solPrice : Q).

Lemma withRetry_first_attempt {T : Type} (operation : M World T) (w w1 : World)
  (v : T) :
  operation w = (w1, Ok v) -> withRetry sleep operation 0 w = (w1, Ok v).
Proof. intros H. rewrite withRetry_step, H. reflexivity. Qed.

(** X11.  When the first page of a window comes back empty, the window ends
    at once: no transaction is fetched, no balance is looked up, and the
    final report is printed for an empty ledger and has no row. *)
Theorem trackWindow_empty_history (fuel : nat) (w w1 : World) :
  getSignaturesForAddress firstRequest (sleep BASE_DELAY w) = (w1, Ok []) ->
  trackWindow sleep getSignaturesForAddress getTransaction getBalance
    now ms solPrice (S fuel) w
  = (w1, Ok (Some ([], []))).
Proof.
  intros Hpage. unfold trackWindow, bind, doSleep.
  cbn [windowLoop initialState keepFetching totalFetched lastSignature
       truthyString andb].
  change (0 <? MAX_TRANSACTIONS_PER_INTERVAL) with true. cbv iota.
  unfold bind at 1.
  change {| limit := BATCH_SIZE; before := None |} with firstRequest.
  rewrite (withRetry_first_attempt _ _ _ _ Hpage).
  reflexivity.
Qed.

(** X12.  When the history ends before a report is due, what was accumulated
    is never processed.  If the first page lies inside the window, holds
    fewer than 800 signatures and not a multiple of 200, and the following
    request returns the empty page, the window ends without any transaction
    having been fetched, and the final report is that of the empty ledger. *)
Theorem trackWindow_unprocessed_tail (fuel : nat) (w w1 w2 : World)
  (signatures : list SigInfo) :
  getSignaturesForAddress firstRequest (sleep BASE_DELAY w) = (w1, Ok signatures) ->
  signatures <> [] ->
  Z.of_nat (List.length signatures) < MAX_TRANSACTIONS_PER_INTERVAL ->
  Z.rem (Z.of_nat (List.length signatures)) 200 <> 0 ->
  now - ms <= timeOf (nth_error signatures (List.length signatures - 1)) ->
  getSignaturesForAddress (nextRequest signatures) (sleep BASE_DELAY w1)
  = (w2, Ok []) ->
  trackWindow sleep getSignaturesForAddress getTransaction getBalance
    now ms solPrice (S (S fuel)) w
  = (w2, Ok (Some ([], []))).
Proof.
  intros Hpage Hne Hcap Hreport Hinside Hend.
  unfold trackWindow. unfold bind at 1. unfold doSleep at 1.
  unfold bind at 1.
  cbn [windowLoop initialState keepFetching totalFetched lastSignature
       truthyString andb].
  change (0 <? MAX_TRANSACTIONS_PER_INTERVAL) with true. cbv iota.
  unfold bind at 1.
  change {| limit := BATCH_SIZE; before := None |} with firstRequest.
  rewrite (withRetry_first_attempt _ _ _ _ Hpage).
  replace (List.length signatures =? 0)%nat with false
    by (symmetry; apply Nat.eqb_neq; destruct signatures; [contradiction|discriminate]).
  set (st1 := accumulate now ms signatures initialState).
  assert (Hold : (timeOf (nth_error signatures (List.length signatures - 1))
                  <? now - ms) = false) by (apply Z.ltb_ge; exact Hinside).
  assert (Htotal : totalFetched st1 = Z.of_nat (List.length signatures))
    by reflexivity.
  assert (Hkeep : keepFetching st1 = true).
  { unfold st1. cbn [accumulate keepFetching initialState totalFetched].
    rewrite Hold. replace (_ <=? _) with false; [reflexivity|].
    symmetry. apply Z.leb_gt. cbn [Z.add]. exact Hcap. }
  assert (Hcursor : lastSignature st1
                    = option_map signature
                        (nth_error signatures (List.length signatures - 1))).
  { unfold st1. cbn [accumulate lastSignature]. rewrite Hold. reflexivity. }
  assert (Hledger : profitTraders st1 = []) by reflexivity.
  rewrite Htotal, Hkeep.
  replace (Z.rem (Z.of_nat (List.length signatures)) 200 =? 0) with false
    by (symmetry; apply Z.eqb_neq; exact Hreport).
  cbn [negb orb]. unfold bind at 1. unfold ret at 1.
  unfold bind at 1. unfold doSleep at 1.
  cbn [windowLoop]. rewrite Hkeep, Htotal.
  replace (Z.of_nat (List.length signatures) <? MAX_TRANSACTIONS_PER_INTERVAL)
    with true by (symmetry; apply Z.ltb_lt; exact Hcap).
  cbn [andb]. unfold bind at 1. rewrite Hcursor.
  change {| limit := BATCH_SIZE;
            before := truthyString
                        (option_map signature
                           (nth_error signatures (List.length signatures - 1))) |}
    with (nextRequest signatures).
  rewrite (withRetry_first_attempt _ _ _ _ Hend).
  cbn [List.length Nat.eqb]. unfold ret at 1. rewrite Hledger.
  reflexivity.
Qed.
End EndOfHistory.

(** A window over no history at all. *)
Lemma trackWindow_empty_history_witness :
  trackWindow Chain.sleep (Chain.getSignaturesForAddress noHistory)
    (Chain.getTransaction Chain.onlyFirstTrades) Chain.getBalance
    Chain.now Chain.ms 150 windowFuel Chain.start
  = ({| Chain.pageRequests := 1; Chain.transactionFetches := 0;
        Chain.balanceLookups := 0 |}, Ok (Some ([], []))).
Proof.
  exact (trackWindow_empty_history Chain.sleep
           (Chain.getSignaturesForAddress noHistory)
           (Chain.getTransaction Chain.onlyFirstTrades) Chain.getBalance
           Chain.now Chain.ms 150 (pred windowFuel) Chain.start _ eq_refl).
Defined.

(** A history of three signatures inside the window, the first of them a
    trade: after the second, empty page nothing has been fetched. *)
Lemma trackWindow_unprocessed_tail_witness :
  trackWindow Chain.sleep (Chain.getSignaturesForAddress Chain.nullInside)
    (Chain.getTransaction (fun _ => Some Chain.aliceBuys)) Chain.getBalance
    Chain.now Chain.ms 150 windowFuel Chain.start
  = ({| Chain.pageRequests := 2; Chain.transactionFetches := 0;
        Chain.balanceLookups := 0 |}, Ok (Some ([], []))).
Proof.
  refine (trackWindow_unprocessed_tail Chain.sleep
            (Chain.getSignaturesForAddress Chain.nullInside)
            (Chain.getTransaction (fun _ => Some Chain.aliceBuys)) Chain.getBalance
            Chain.now Chain.ms 150 (pred (pred windowFuel)) Chain.start _ _
            (Chain.nullInside 0) eq_refl _ _ _ _ eq_refl).
  - discriminate.
  - reflexivity.
  - discriminate.
  - discriminate.
Defined.

(** ** The ledger of a window *)

Lemma reachable_ledgerInvariant (l : Ledger) : Reachable l -> ledgerInvariant l.
Proof.
  induction 1 as [|transaction l _ IH|i balance solPrice l _ IH].
  - constructor.
  - apply processTransaction_invariant, IH.
  - apply updateAt_invariant; [|exact IH].
    intros d. apply recordInvariant_setBalances.
Qed.

Section LedgerOfWindow.
Context {World : Type}.
Variable sleep : Z -> World -> World.
Variable getSignaturesForAddress : SigOptions -> M World (list SigInfo).
Variable getTransaction : string -> M World (option Transaction).
Variable getBalance : string -> M World Z.
Variables (now ms : Z) (solPrice : Q).

Lemma processSignatures_reachable (sigs : list SigInfo) :
  forall (l l' : Ledger) (w w' : World),
    Reachable l ->
    processSignatures sleep getTransaction sigs l w = (w', Ok l') ->
    Reachable l'.
Proof.
  induction sigs as [|sig rest IH]; intros l l' w w' Hl Hrun;
    cbn [processSignatures] in Hrun.
  - injection Hrun as _ <-. exact Hl.
  - unfold bind at 1 in Hrun. unfold tryCatch, bind, doSleep, ret in Hrun.
    destruct (withRetry sleep (getTransaction (signature sig)) 0 (sleep BASE_DELAY w))
      as [w1 [transaction|e]].
    + eapply IH; [|exact Hrun]. apply reach_transaction, Hl.
    + eapply IH; [|exact Hrun]. exact Hl.
Qed.

Lemma updateBalances_reachable (eligible : list Entry) :
  forall (l l' : Ledger) (w w' : World),
    Reachable l ->
    updateBalances sleep getBalance solPrice eligible l w = (w', Ok l') ->
    Reachable l'.
Proof.
  induction eligible as [|[i [address d]] rest IH]; intros l l' w w' Hl Hrun;
    cbn [updateBalances] in Hrun.
  - injection Hrun as _ <-. exact Hl.
  - unfold bind at 1 in Hrun. unfold doSleep at 1 in Hrun. unfold bind at 1 in Hrun.
    destruct (getWalletSolBalance getBalance address (sleep BASE_DELAY w))
      as [w1 [balance|e]]; [|discriminate Hrun].
    eapply IH; [|exact Hrun]. apply reach_report, Hl.
Qed.

Lemma displayResults_reachable (l l' : Ledger) (rows : list (string * TraderData))
  (w w' : World) :
  Reachable l ->
  displayResults sleep getBalance l solPrice w = (w', Ok (l', rows)) ->
  Reachable l' /\ incl rows l'.
Proof.
  intros Hl Hrun.
  destruct (displayResults_returns sleep getBalance l solPrice w)
    as (w2 & l2 & Hrun2 & Hframe).
  rewrite Hrun in Hrun2. injection Hrun2 as <- <- ->.
  split.
  - unfold displayResults, bind in Hrun.
    destruct (updateBalances sleep getBalance solPrice (eligibleTraders l) l w)
      as [w1 [l1|e]] eqn:Hupd; [|discriminate Hrun].
    unfold ret in Hrun. injection Hrun as _ <-.
    eapply updateBalances_reachable; eassumption.
  - intros row Hin. apply in_map_iff in Hin as (e & <- & He).
    apply eligibleTraders_spec in He as [Hnth _].
    specialize (Hframe (fst e)). rewrite Hnth in Hframe.
    destruct e as [i [k d]]. cbn [fst snd] in *.
    destruct (nth_error l' i) as [[k' d']|] eqn:E; [|contradiction].
    destruct Hframe as (-> & _).
    unfold readEntry. cbn [fst snd].
    rewrite (nth_error_nth (map snd l') i (entryData (i, (k, d))) (x := d')).
    + eapply nth_error_In. exact E.
    + rewrite nth_error_map, E. reflexivity.
Qed.

Lemma windowLoop_reachable :
  forall fuel st w w' st',
    Reachable (profitTraders st) ->
    windowLoop sleep getSignaturesForAddress getTransaction getBalance
      now ms solPrice fuel st w = (w', Ok (Some st')) ->
    Reachable (profitTraders st').
Proof.
  induction fuel as [|fuel IH]; intros st w w' st' Hl Hrun; cbn [windowLoop] in Hrun;
    destruct (keepFetching st && (totalFetched st <? MAX_TRANSACTIONS_PER_INTERVAL));
    try (injection Hrun as _ <-; exact Hl); try discriminate Hrun.
  unfold bind at 1 in Hrun.
  match type of Hrun with
  | context [withRetry sleep ?op 0 w] =>
      destruct (withRetry sleep op 0 w) as [w1 [signatures|e]]
  end; [|discriminate Hrun].
  destruct (List.length signatures =? 0)%nat;
    [injection Hrun as _ <-; exact Hl|].
  unfold bind at 1 in Hrun.
  destruct (_ || _) in Hrun.
  - unfold processAndDisplay in Hrun. unfold bind at 1 in Hrun.
    destruct (processSignatures sleep getTransaction
                (allSignatures (accumulate now ms signatures st))
                (profitTraders (accumulate now ms signatures st)) w1)
      as [w2 [l2|e]] eqn:Hproc; [|discriminate Hrun].
    apply processSignatures_reachable in Hproc; [|exact Hl].
    unfold bind at 1 in Hrun.
    destruct (displayResults sleep getBalance l2 solPrice w2)
      as [w3 [[l3 rows]|e]] eqn:Hshown; [|discriminate Hrun].
    apply displayResults_reachable in Hshown as [Hl3 _]; [|exact Hproc].
    unfold ret, bind, doSleep in Hrun.
    eapply IH; [|exact Hrun]. exact Hl3.
  - unfold ret, bind, doSleep in Hrun.
    eapply IH; [|exact Hrun]. exact Hl.
Qed.

(** X13.  Whatever the provider returns or throws, the ledger a window ends
    with is built from the empty ledger by ledger updates of fetched
    transactions and by balance mutations of reports alone; every row of the
    final report is a record of that ledger, and so has trades >= 1,
    trades >= successfulTrades >= 0 and totalVolume >= 0. *)
Theorem trackWindow_ledger_reachable (fuel : nat) (w w' : World) (ledger : Ledger)
  (rows : list (string * TraderData)) :
  trackWindow sleep getSignaturesForAddress getTransaction getBalance
    now ms solPrice fuel w = (w', Ok (Some (ledger, rows))) ->
  Reachable ledger /\ incl rows ledger
  /\ Forall
       (fun row =>
          1 <= trades (snd row)
          /\ 0 <= successfulTrades (snd row) <= trades (snd row)
          /\ (0 <= totalVolume (snd row))%Q)
       rows.
Proof.
  intros Hrun.
  assert (H : Reachable ledger /\ incl rows ledger).
  2:{ destruct H as [Hreach Hincl]. split; [exact Hreach|]. split; [exact Hincl|].
      apply reachable_ledgerInvariant in Hreach. unfold ledgerInvariant in Hreach.
      rewrite Forall_forall in Hreach |- *. intros row Hin.
      destruct (Hreach row (Hincl row Hin)) as (H1 & H2 & H3 & _).
      repeat split; assumption || lia. }
  revert Hrun.
  unfold trackWindow. unfold bind at 1. unfold doSleep at 1. unfold bind at 1.
  destruct (windowLoop sleep getSignaturesForAddress getTransaction getBalance
              now ms solPrice fuel initialState (sleep BASE_DELAY w))
    as [w1 [[st|]|e]] eqn:Hloop; try discriminate.
  apply windowLoop_reachable in Hloop; [|apply reach_empty].
  unfold bind at 1.
  destruct (displayResults sleep getBalance (profitTraders st) solPrice w1)
    as [w2 [[l2 rows2]|e]] eqn:Hshown; [|discriminate].
  unfold ret. intros [= <- <- <-].
  eapply displayResults_reachable; eassumption.
Qed.
End LedgerOfWindow.

(** The window of C1, in which a trade is applied twice, still ends with a
    reachable ledger. *)
Lemma trackWindow_ledger_reachable_witness :
  exists w' ledger rows,
    trackWindow Chain.sleep (Chain.getSignaturesForAddress Chain.fourPagesThenOld)
      (Chain.getTransaction Chain.onlyFirstTrades) Chain.getBalance
      Chain.now Chain.ms 150 windowFuel Chain.start
    = (w', Ok (Some (ledger, rows)))
    /\ Reachable ledger /\ incl rows ledger
    /\ Forall
         (fun row =>
            1 <= trades (snd row)
            /\ 0 <= successfulTrades (snd row) <= trades (snd row)
            /\ (0 <= totalVolume (snd row))%Q)
         rows.
Proof.
  eexists _, _, _. split; [vm_compute; reflexivity|].
  eapply (trackWindow_ledger_reachable Chain.sleep
            (Chain.getSignaturesForAddress Chain.fourPagesThenOld)
            (Chain.getTransaction Chain.onlyFirstTrades) Chain.getBalance
            Chain.now Chain.ms 150 windowFuel Chain.start).
  vm_compute. reflexivity.
Defined.

(** ** The whole run *)

Section RunFacts.
Context {World : Type}.
Variable sleep : Z -> World -> World.
Variable getSignaturesForAddress : SigOptions -> M World (list SigInfo).
Variable getTransaction : string -> M World (option Transaction).
Variable getBalance : string -> M World Z.
Variable fetchSolPrice : M World Q.
Variable dateNow : World -> Z.
Variable exit : Z -> World -> World.

Let run := trackProfitablePumpFunTraders sleep getSignaturesForAddress
             getTransaction getBalance fetchSolPrice dateNow.

Lemma trackPeriod_has_fuel (now : Z) (solPrice : Q) (ledger : Ledger) (ms : Z)
  (w : World) :
  snd (trackPeriod sleep getSignaturesForAddress getTransaction getBalance
         now solPrice windowFuel ledger ms w) <> Ok None.
Proof.
  unfold trackPeriod. unfold bind at 1. unfold doSleep at 1. unfold bind at 1.
  pose proof (windowLoop_terminates sleep getSignaturesForAddress getTransaction
                getBalance now ms solPrice windowFuel
                (withLedger initialState ledger) (sleep BASE_DELAY w)
                windowFuel_enough) as Hfuel.
  destruct (windowLoop sleep getSignaturesForAddress getTransaction getBalance
              now ms solPrice windowFuel (withLedger initialState ledger)
              (sleep BASE_DELAY w)) as [w1 [[st|]|e]];
    [|exfalso; apply Hfuel; reflexivity|cbn; discriminate].
  unfold bind.
  destruct (displayResults sleep getBalance (profitTraders st) solPrice w1)
    as [w2 [shown|e]]; cbn; discriminate.
Qed.

Lemma trackPeriods_completes (now : Z) (solPrice : Q) (periods : list (string * Z)) :
  forall (ledger : Ledger) (w w' : World) (r : RunEnd),
    trackPeriods sleep getSignaturesForAddress getTransaction getBalance
      now solPrice windowFuel periods ledger w = (w', Ok r) ->
    r = Completed.
Proof.
  induction periods as [|[period ms] rest IH]; intros ledger w w' r Hrun;
    cbn [trackPeriods] in Hrun.
  - injection Hrun as _ <-. reflexivity.
  - unfold bind at 1 in Hrun.
    pose proof (trackPeriod_has_fuel now solPrice ledger ms w) as Hfuel.
    destruct (trackPeriod sleep getSignaturesForAddress getTransaction getBalance
                now solPrice windowFuel ledger ms w) as [w1 [[ledger'|]|e]];
      [|exfalso; apply Hfuel; reflexivity|discriminate Hrun].
    eapply IH. exact Hrun.
Qed.

(** X14.  The run never throws, whatever the providers do: it returns after
    the last period, or after reporting that the price is missing, or after
    reporting the error that stopped it.  The rejection handler of index.ts
    is therefore never run, and [process.exit(1)] is never called. *)
Theorem run_never_rejects (w : World) :
  exists w' r,
    run windowFuel w = (w', Ok r)
    /\ r <> OutOfFuel
    /\ main sleep getSignaturesForAddress getTransaction getBalance
         fetchSolPrice dateNow exit windowFuel w = (w', Ok r).
Proof.
  assert (H : exists w' r, run windowFuel w = (w', Ok r) /\ r <> OutOfFuel).
  { unfold run, trackProfitablePumpFunTraders, tryCatch. cbv zeta.
    unfold bind at 1. unfold getSolPrice, tryCatch.
    destruct (fetchSolPrice w) as [w1 [price|e]].
    - destruct (Qeq_bool price 0).
      + eexists _, _. split; [reflexivity|discriminate].
      + destruct (trackPeriods sleep getSignaturesForAddress getTransaction
                    getBalance (dateNow w) price windowFuel TIME_PERIODS [] w1)
          as [w2 [r|e]] eqn:Hperiods.
        * apply trackPeriods_completes in Hperiods. subst r.
          eexists _, _. split; [reflexivity|discriminate].
        * eexists _, _. split; [reflexivity|discriminate].
    - unfold ret. change (Qeq_bool 0 0) with true. cbv iota.
      eexists _, _. split; [reflexivity|discriminate]. }
  destruct H as (w' & r & Hrun & Hr).
  exists w', r. split; [exact Hrun|]. split; [exact Hr|].
  unfold main, tryCatch. fold run. rewrite Hrun. reflexivity.
Qed.

(** X15.  When the price request throws, or returns 0, the run stops right
    there: nothing is slept, no page, transaction or balance is requested. *)
Theorem run_without_price (fuel : nat) (w w1 : World) :
  (exists e, fetchSolPrice w = (w1, Throw e))
  \/ (exists price, fetchSolPrice w = (w1, Ok price) /\ (price == 0)%Q) ->
  run fuel w = (w1, Ok PriceUnavailable).
Proof.
  intros Hprice.
  unfold run, trackProfitablePumpFunTraders, tryCatch. cbv zeta.
  unfold bind at 1. unfold getSolPrice, tryCatch.
  destruct Hprice as [(e & ->)|(price & -> & Hzero)].
  - reflexivity.
  - apply Qeq_bool_iff in Hzero. rewrite Hzero. reflexivity.
Qed.

(** X16.  When the first page request of the first period fails with an
    error that is not rate limited, the run ends with that error reported:
    the request is not repeated, the three remaining periods are not
    started, and the caller is not told of a failure. *)
Theorem run_stops_at_page_failure (fuel : nat) (w w1 w2 : World) (price : Q)
  (e : Error) :
  fetchSolPrice w = (w1, Ok price) ->
  ~ (price == 0)%Q ->
  getSignaturesForAddress firstRequest (sleep BASE_DELAY w1) = (w2, Throw e) ->
  isRateLimited e = false ->
  run (S fuel) w = (w2, Ok (Failed e))
  /\ main sleep getSignaturesForAddress getTransaction getBalance
       fetchSolPrice dateNow exit (S fuel) w = (w2, Ok (Failed e)).
Proof.
  intros Hprice Hnonzero Hpage Hother.
  assert (Hrun : run (S fuel) w = (w2, Ok (Failed e))).
  { unfold run, trackProfitablePumpFunTraders, tryCatch. cbv zeta.
    unfold bind at 1. unfold getSolPrice, tryCatch. rewrite Hprice.
    replace (Qeq_bool price 0) with false
      by (symmetry; destruct (Qeq_bool price 0) eqn:E; [|reflexivity];
          apply Qeq_bool_eq in E; contradiction).
    unfold TIME_PERIODS. cbn [trackPeriods]. unfold bind at 1.
    unfold trackPeriod. unfold bind at 1. unfold doSleep at 1. unfold bind at 1.
    cbn [windowLoop withLedger initialState keepFetching totalFetched
         lastSignature truthyString andb].
    change (0 <? MAX_TRANSACTIONS_PER_INTERVAL) with true. cbv iota.
    unfold bind at 1.
    change {| limit := BATCH_SIZE; before := None |} with firstRequest.
    rewrite withRetry_step, Hpage, Hother. reflexivity. }
  split; [exact Hrun|].
  unfold main, tryCatch. fold run. rewrite Hrun. reflexivity.
Qed.
End RunFacts.

(** With the price provider down nothing is requested from the chain. *)
Lemma run_without_price_witness :
  trackProfitablePumpFunTraders Chain.sleep
    (Chain.getSignaturesForAddress Chain.fullPages)
    (Chain.getTransaction Chain.onlyFirstTrades) Chain.getBalance
    priceDown (fun _ => Chain.now) windowFuel Chain.start
  = (Chain.start, Ok PriceUnavailable).
Proof.
  apply run_without_price. left. exists serviceUnavailable. reflexivity.
Defined.

(** With the chain provider down the run reports the error of the first
    request and ends. *)
Lemma run_stops_at_page_failure_witness :
  main Chain.sleep pagesDown (Chain.getTransaction Chain.onlyFirstTrades)
    Chain.getBalance (ret 150%Q) (fun _ => Chain.now) (fun _ w => w)
    windowFuel Chain.start
  = (Chain.start, Ok (Failed serviceUnavailable)).
Proof.
  refine (proj2 (run_stops_at_page_failure Chain.sleep pagesDown
                   (Chain.getTransaction Chain.onlyFirstTrades) Chain.getBalance
                   (ret 150%Q) (fun _ => Chain.now) (fun _ w => w)
                   (pred windowFuel) Chain.start Chain.start Chain.start 150
                   serviceUnavailable eq_refl _ eq_refl eq_refl)).
  discriminate.
Defined.

(** ** Ties and unpaired entries *)

Lemma withProfit_insertByProfit (p : Q) (a : Entry) (l : list Entry) :
  withProfit p (insertByProfit a l) = withProfit p (a :: l).
Proof.
  induction l as [|b l IH]; cbn [insertByProfit]; [reflexivity|].
  destruct (Qle_bool (profit (entryData b) - profit (entryData a)) 0) eqn:E;
    [reflexivity|].
  unfold withProfit in *. cbn [filter] in *.
  destruct (Qeq_bool (profit (entryData a)) p) eqn:Ea.
  - destruct (Qeq_bool (profit (entryData b)) p) eqn:Eb.
    + exfalso. apply Qeq_bool_eq in Ea, Eb.
      assert (Hle : Qle_bool (profit (entryData b) - profit (entryData a)) 0 = true).
      { apply Qle_bool_iff. rewrite Ea, Eb. unfold Qminus. rewrite Qplus_opp_r.
        apply Qle_refl. }
      congruence.
    + exact IH.
  - rewrite IH. reflexivity.
Qed.

(** X17.  The sort of the report is stable: for every profit value, the
    records with that profit come out in the order in which they stand in
    the ledger. *)
Theorem sortByProfit_stable (p : Q) (l : list Entry) :
  withProfit p (sortByProfit l) = withProfit p l.
Proof.
  induction l as [|a l IH]; cbn [sortByProfit fold_right]; [reflexivity|].
  rewrite withProfit_insertByProfit. fold (sortByProfit l).
  unfold withProfit in *. cbn [filter]. rewrite IH. reflexivity.
Qed.

Lemma at_index_app {A} (arr extra : list (option A)) (i : nat) :
  (i < List.length arr)%nat -> at_index (arr ++ extra) i = at_index arr i.
Proof.
  intros Hi. unfold at_index. rewrite nth_error_app1 by exact Hi. reflexivity.
Qed.

(** X18.  Token-balance entries are paired by position over the length of
    the pre list only.  Entries of the post list beyond that length change
    neither the classification of a transaction nor what it does to the
    ledger; a token account that exists only after the transaction earns its
    owner no record. *)
Theorem unpaired_post_entries_ignored
  (pres posts extra : list (option TokenBalance)) (solPre solPost : list Z)
  (l : Ledger) :
  (List.length pres <= List.length posts)%nat ->
  isTradeTransaction (Some (tokenTransaction pres (posts ++ extra) solPre solPost))
  = isTradeTransaction (Some (tokenTransaction pres posts solPre solPost))
  /\ processTransaction
       (Some (tokenTransaction pres (posts ++ extra) solPre solPost)) l
     = processTransaction (Some (tokenTransaction pres posts solPre solPost)) l.
Proof.
  intros Hlen.
  assert (Htrade :
    isTradeTransaction (Some (tokenTransaction pres (posts ++ extra) solPre solPost))
    = isTradeTransaction (Some (tokenTransaction pres posts solPre solPost))).
  { unfold isTradeTransaction, tokenTransaction.
    cbn [meta preTokenBalances postTokenBalances].
    apply eq_true_iff_eq. rewrite !existsb_exists.
    split; intros (i & Hin & Hi); exists i; (split; [exact Hin|]);
      apply in_seq in Hin.
    - rewrite at_index_app in Hi by lia. exact Hi.
    - rewrite at_index_app by lia. exact Hi. }
  split; [exact Htrade|].
  unfold processTransaction. rewrite Htrade.
  cbn [tokenTransaction meta preTokenBalances postTokenBalances orEmpty].
  destruct (negb _); [reflexivity|].
  change (calculateTradeValue
            (Some (tokenTransaction pres (posts ++ extra) solPre solPost)))
    with (calculateTradeValue (Some (tokenTransaction pres posts solPre solPost))).
  cbv zeta. destruct (Qeq_bool _ _); [reflexivity|].
  unfold applyTokenBalances.
  apply fold_left_ext_in. intros acc i Hin. apply in_seq in Hin.
  rewrite at_index_app by lia. reflexivity.
Qed.

(** A first purchase into a new token account is no trade and leaves the
    ledger empty. *)
Lemma unpaired_post_entries_ignored_witness :
  isTradeTransaction (Some firstPurchase) = false
  /\ processTransaction (Some firstPurchase) [] = [].
Proof.
  destruct (unpaired_post_entries_ignored [] []
              [tokenBalance (Some "A") 1000000000]
              [3000000000; 0] [1850000000; 1150000000] [] (Nat.le_refl _))
    as [Htrade Hledger].
  split; [exact (eq_trans Htrade eq_refl)|exact (eq_trans Hledger eq_refl)].
Defined.

(** X19.  The trade value counts both sides of a transfer: when a
    transaction moves [x] lamports, more than the dust threshold, from one
    account to another, its trade value is twice [x] in SOL. *)
Theorem calculateTradeValue_counts_both_sides (tx : Transaction) (m : Meta)
  (a b x : Z) :
  meta tx = Some m ->
  preBalances m = Some [a; b] ->
  postBalances m = Some [a - x; b + x] ->
  1000000 < x ->
  (calculateTradeValue (Some tx) == inject_Z (2 * x) / inject_Z LAMPORTS_PER_SOL)%Q.
Proof.
  intros Hm Hpre Hpost Hx. unfold calculateTradeValue.
  rewrite Hm, Hpre, Hpost. cbn [List.length seq fold_left nth_error].
  replace (Z.abs (a - x - a)) with x by lia.
  replace (Z.abs (b + x - b)) with x by lia.
  replace (Qltb (1 # 1000) (inject_Z x / inject_Z LAMPORTS_PER_SOL)) with true
    by (symmetry; apply change_counts; exact Hx).
  unfold Qdiv. rewrite Qplus_0_l, <- Qmult_plus_distr_l, <- inject_Z_plus.
  replace (x + x) with (2 * x) by lia. reflexivity.
Qed.

(** The transaction of C5 moves 1.15 SOL and has the trade value 2.3. *)
Lemma calculateTradeValue_counts_both_sides_witness :
  (calculateTradeValue (Some twoParticipants) == 23 # 10)%Q.
Proof.
  rewrite (calculateTradeValue_counts_both_sides twoParticipants _
             3000000000 0 1150000000 eq_refl eq_refl eq_refl).
  - reflexivity.
  - lia.
Defined.
